(** * Canvas replay plugin: a model of canvas-plugin.ts

    The plugin of
    frontend/src/scenes/session-recordings/player/rrweb/canvas/canvas-plugin.ts
    is a closure over a handful of mutable maps, a set and a cursor.  Its
    asynchronous functions run on one cooperative thread: a call runs
    synchronously up to its first [await], is parked there, and goes on when
    the awaited promise settles.  The model keeps the closure variables in a
    record, the parked calls in a list of frames, and lets the environment
    choose which parked call is resumed next. *)

From stdpp Require Import gmap list strings.
From Stdlib Require Import ZArith Lia.

Local Open Scope Z_scope.
#[local] Set Warnings "-clear-no-such-hyp".

(** ** Recorded events *)

(** An event is a JavaScript object: maps and sets keyed by events compare
    object identity, which [uid] stands for. *)
Abbreviation EventId := nat (only parsing).
Abbreviation Payload := nat (only parsing).
Abbreviation Handle := nat (only parsing).

Inductive CanvasArg :=
| Primitive (v : Z)
| Plain (vs : list Z)
| SerializedReference (kind : string) (payload : Payload)
| Decoded (h : Handle).

Record Command := { method : string; args : list CanvasArg }.

(** [canvasMutationData] is either [{ id, commands }] or a single
    [{ id, method, args }]; ['commands' in data] tells them apart. *)
Inductive Mutation :=
| Commands (commands : list Command)
| Single (c : Command).

Record canvasMutationData := { data_id : Z; mutation : Mutation }.

Inductive EventType :=
| DomContentLoaded | Load | FullSnapshot | IncrementalSnapshot | Meta | Custom | Plugin.

(** The [data] of an event: of source [IncrementalSource.CanvasMutation], or
    anything else. *)
Inductive EventData :=
| CanvasMutationSource (d : canvasMutationData)
| OtherSource.

Record eventWithTime := {
  uid : EventId;
  timestamp : Z;
  ev_type : EventType;
  data : EventData
}.

(** [eventWithTime & { type: IncrementalSnapshot, data: canvasMutationData }] *)
Record CanvasEventWithTime := {
  c_uid : EventId;
  c_timestamp : Z;
  c_data : canvasMutationData
}.

(** The type guard [isCanvasMutation], together with the narrowing it
    licenses. *)
Definition asCanvasMutation (e : eventWithTime) : option CanvasEventWithTime :=
  match ev_type e, data e with
  | IncrementalSnapshot, CanvasMutationSource d =>
      Some {| c_uid := uid e; c_timestamp := timestamp e; c_data := d |}
  | _, _ => None
  end.

Definition isCanvasMutation (e : eventWithTime) : bool :=
  match asCanvasMutation e with Some _ => true | None => false end.

(** [Array.prototype.findIndex]: the first index whose element passes, or -1. *)
Fixpoint findIndex {A} (p : A → bool) (l : list A) : Z :=
  match l with
  | [] => -1
  | x :: l' =>
      if p x then 0
      else let r := findIndex p l' in if r <? 0 then -1 else r + 1
  end.

Definition findEvent (events : list CanvasEventWithTime)
    (target : CanvasEventWithTime) : Z :=
  findIndex (λ event, data_id (c_data event) =? data_id (c_data target)) events.

(** [Array.prototype.slice(start, end)] on integer arguments: a negative
    index counts from the end, both are clamped to the array. *)
Definition slice {A} (l : list A) (start end_ : Z) : list A :=
  let len := Z.of_nat (length l) in
  let k := if start <? 0 then Z.max (len + start) 0 else Z.min start len in
  let final := if end_ <? 0 then Z.max (len + end_) 0 else Z.min end_ len in
  take (Z.to_nat (final - k)) (drop (Z.to_nat k) l).

Definition PRELOAD_BUFFER_SIZE : Z := 30.

(** ** The DOM objects the plugin touches *)

(** The off-screen clone.  [drawn] is the trace of the draw calls replayed on
    it, each with the event it came from. *)
Record HTMLCanvasElement := {
  width : Z;
  height : Z;
  drawn : list (EventId * Command)
}.

(** A live canvas node of the mirror. *)
Record SourceNode := {
  attr_width : Z;
  attr_height : Z;
  clientWidth : Z;
  clientHeight : Z
}.

(** [target.toDataURL()] is a picture of the canvas: the canvas itself. *)
Record HTMLImageElement := { src : option HTMLCanvasElement }.

Inductive Thrown :=
| ErrorObject (message : string)
| NonError (v : Z).

(** ** Parked asynchronous calls *)

(** What a call of [deserializeCanvasArg(imageMap, null, status)(arg)]
    returned: a promise that is already settled, or one that waits for the
    decoder. *)
Inductive ArgPromise :=
| Settled (v : CanvasArg)
| Decoding (kind : string) (payload : Payload).

Record CommandPromise := { p_command : Command; p_args : list ArgPromise }.

Inductive MutationPromise :=
| PCommands (cs : list CommandPromise)
| PSingle (c : CommandPromise).

(** The frame of [deserializeAndPreloadCanvasEvents] at its [await]: the
    local [status] and the promises handed to [Promise.all]; [Cached] when
    [canvasEventMap.has(event)] and the call had nothing to do. *)
Inductive Resolution :=
| Cached
| Walking (isUnchanged : bool) (pending : MutationPromise).

Inductive Task :=
| PreloadTask (event : CanvasEventWithTime) (rest : list CanvasEventWithTime)
    (r : Resolution)
| MutationTask (e : CanvasEventWithTime) (replay : list Command).

(** ** The closure *)

Record State := {
  canvasMutationEvents : list CanvasEventWithTime;
  canvases : gmap Z HTMLCanvasElement;
  containers : gmap Z HTMLImageElement;
  imageMap : gmap Payload Handle;
  canvasEventMap : gmap EventId canvasMutationData;
  preloadBuffer : gset EventId;
  nextPreloadIndex : option Z;
  (* the world around the closure *)
  tasks : list Task;
  captured : list Thrown;
  consoleErrors : list Thrown;
  unhandled : list Thrown;
  decodeLog : list (EventId * list Payload)
}.

Definition set_canvases (f : gmap Z HTMLCanvasElement → gmap Z HTMLCanvasElement)
    (st : State) : State :=
  {| canvasMutationEvents := canvasMutationEvents st;
     canvases := f (canvases st); containers := containers st;
     imageMap := imageMap st; canvasEventMap := canvasEventMap st;
     preloadBuffer := preloadBuffer st; nextPreloadIndex := nextPreloadIndex st;
     tasks := tasks st; captured := captured st;
     consoleErrors := consoleErrors st; unhandled := unhandled st;
     decodeLog := decodeLog st |}.

Definition set_containers (f : gmap Z HTMLImageElement → gmap Z HTMLImageElement)
    (st : State) : State :=
  {| canvasMutationEvents := canvasMutationEvents st;
     canvases := canvases st; containers := f (containers st);
     imageMap := imageMap st; canvasEventMap := canvasEventMap st;
     preloadBuffer := preloadBuffer st; nextPreloadIndex := nextPreloadIndex st;
     tasks := tasks st; captured := captured st;
     consoleErrors := consoleErrors st; unhandled := unhandled st;
     decodeLog := decodeLog st |}.

Definition set_imageMap (f : gmap Payload Handle → gmap Payload Handle)
    (st : State) : State :=
  {| canvasMutationEvents := canvasMutationEvents st;
     canvases := canvases st; containers := containers st;
     imageMap := f (imageMap st); canvasEventMap := canvasEventMap st;
     preloadBuffer := preloadBuffer st; nextPreloadIndex := nextPreloadIndex st;
     tasks := tasks st; captured := captured st;
     consoleErrors := consoleErrors st; unhandled := unhandled st;
     decodeLog := decodeLog st |}.

Definition set_canvasEventMap
    (f : gmap EventId canvasMutationData → gmap EventId canvasMutationData)
    (st : State) : State :=
  {| canvasMutationEvents := canvasMutationEvents st;
     canvases := canvases st; containers := containers st;
     imageMap := imageMap st; canvasEventMap := f (canvasEventMap st);
     preloadBuffer := preloadBuffer st; nextPreloadIndex := nextPreloadIndex st;
     tasks := tasks st; captured := captured st;
     consoleErrors := consoleErrors st; unhandled := unhandled st;
     decodeLog := decodeLog st |}.

Definition set_preloadBuffer (f : gset EventId → gset EventId) (st : State) : State :=
  {| canvasMutationEvents := canvasMutationEvents st;
     canvases := canvases st; containers := containers st;
     imageMap := imageMap st; canvasEventMap := canvasEventMap st;
     preloadBuffer := f (preloadBuffer st); nextPreloadIndex := nextPreloadIndex st;
     tasks := tasks st; captured := captured st;
     consoleErrors := consoleErrors st; unhandled := unhandled st;
     decodeLog := decodeLog st |}.

Definition set_nextPreloadIndex (n : option Z) (st : State) : State :=
  {| canvasMutationEvents := canvasMutationEvents st;
     canvases := canvases st; containers := containers st;
     imageMap := imageMap st; canvasEventMap := canvasEventMap st;
     preloadBuffer := preloadBuffer st; nextPreloadIndex := n;
     tasks := tasks st; captured := captured st;
     consoleErrors := consoleErrors st; unhandled := unhandled st;
     decodeLog := decodeLog st |}.

Definition set_tasks (f : list Task → list Task) (st : State) : State :=
  {| canvasMutationEvents := canvasMutationEvents st;
     canvases := canvases st; containers := containers st;
     imageMap := imageMap st; canvasEventMap := canvasEventMap st;
     preloadBuffer := preloadBuffer st; nextPreloadIndex := nextPreloadIndex st;
     tasks := f (tasks st); captured := captured st;
     consoleErrors := consoleErrors st; unhandled := unhandled st;
     decodeLog := decodeLog st |}.

Definition set_captured (f : list Thrown → list Thrown) (st : State) : State :=
  {| canvasMutationEvents := canvasMutationEvents st;
     canvases := canvases st; containers := containers st;
     imageMap := imageMap st; canvasEventMap := canvasEventMap st;
     preloadBuffer := preloadBuffer st; nextPreloadIndex := nextPreloadIndex st;
     tasks := tasks st; captured := f (captured st);
     consoleErrors := consoleErrors st; unhandled := unhandled st;
     decodeLog := decodeLog st |}.

Definition set_consoleErrors (f : list Thrown → list Thrown) (st : State) : State :=
  {| canvasMutationEvents := canvasMutationEvents st;
     canvases := canvases st; containers := containers st;
     imageMap := imageMap st; canvasEventMap := canvasEventMap st;
     preloadBuffer := preloadBuffer st; nextPreloadIndex := nextPreloadIndex st;
     tasks := tasks st; captured := captured st;
     consoleErrors := f (consoleErrors st); unhandled := unhandled st;
     decodeLog := decodeLog st |}.

Definition set_unhandled (f : list Thrown → list Thrown) (st : State) : State :=
  {| canvasMutationEvents := canvasMutationEvents st;
     canvases := canvases st; containers := containers st;
     imageMap := imageMap st; canvasEventMap := canvasEventMap st;
     preloadBuffer := preloadBuffer st; nextPreloadIndex := nextPreloadIndex st;
     tasks := tasks st; captured := captured st;
     consoleErrors := consoleErrors st; unhandled := f (unhandled st);
     decodeLog := decodeLog st |}.

Definition set_decodeLog
    (f : list (EventId * list Payload) → list (EventId * list Payload))
    (st : State) : State :=
  {| canvasMutationEvents := canvasMutationEvents st;
     canvases := canvases st; containers := containers st;
     imageMap := imageMap st; canvasEventMap := canvasEventMap st;
     preloadBuffer := preloadBuffer st; nextPreloadIndex := nextPreloadIndex st;
     tasks := tasks st; captured := captured st;
     consoleErrors := consoleErrors st; unhandled := unhandled st;
     decodeLog := f (decodeLog st) |}.

Definition spawn (t : Task) (st : State) : State := set_tasks (cons t) st.

(** ** The plugin *)

Section Plugin.

(** The browser's decoders ([createImageBitmap] and the like): the handle a
    payload decodes to, or a failure. *)
Variable decode : Payload → option Handle.

(** What the drawing context makes of a replayed call: nothing to report, or
    the value it throws. *)
Variable drawCall : Command → option Thrown.

Definition DecodeFailure : Thrown := ErrorObject "DecodeFailure".

(** Modelled from the spec: [deserializeCanvasArg], which the plugin imports
    from ./deserialize-canvas-args and only calls.  For a SerializedReference
    the call marks [status] as changed and decodes the referenced payload
    asynchronously, sharing decoded handles through [imageMap]: a payload
    found there is not decoded again.  Any other argument is handed back as
    it is and leaves [status] alone. *)
Definition deserializeCanvasArg (imageMap : gmap Payload Handle) (status : bool)
    (arg : CanvasArg) : bool * ArgPromise :=
  match arg with
  | SerializedReference kind payload =>
      (false,
       match imageMap !! payload with
       | Some h => Settled (Decoded h)
       | None => Decoding kind payload
       end)
  | _ => (status, Settled arg)
  end.

(** [args.map(deserializeCanvasArg(imageMap, null, status))]: every call runs
    up to its own first [await] before [Promise.all] is reached, all of them
    on the one [status] object. *)
Fixpoint walk_args (imageMap : gmap Payload Handle) (status : bool)
    (l : list CanvasArg) : bool * list ArgPromise :=
  match l with
  | [] => (status, [])
  | arg :: l' =>
      let '(s1, p) := deserializeCanvasArg imageMap status arg in
      let '(s2, ps) := walk_args imageMap s1 l' in
      (s2, p :: ps)
  end.

Fixpoint walk_commands (imageMap : gmap Payload Handle) (status : bool)
    (cs : list Command) : bool * list CommandPromise :=
  match cs with
  | [] => (status, [])
  | c :: cs' =>
      let '(s1, ps) := walk_args imageMap status (args c) in
      let '(s2, cps) := walk_commands imageMap s1 cs' in
      (s2, {| p_command := c; p_args := ps |} :: cps)
  end.

(** The payloads a walk handed to the decoder. *)
Definition decoding (ps : list ArgPromise) : list Payload :=
  omap (λ p, match p with Decoding _ payload => Some payload | Settled _ => None end) ps.

Definition decoding_of (m : MutationPromise) : list Payload :=
  match m with
  | PCommands cps => concat (map (λ cp, decoding (p_args cp)) cps)
  | PSingle cp => decoding (p_args cp)
  end.

(** [deserializeAndPreloadCanvasEvents(data, event)] up to its [await]. *)
Definition deserializeAndPreloadCanvasEvents (data : canvasMutationData)
    (event : EventId) (st : State) : State * Resolution :=
  match canvasEventMap st !! event with
  | Some _ => (st, Cached)
  | None =>
      let '(status, pending) :=
        match mutation data with
        | Commands cs =>
            let '(s, cps) := walk_commands (imageMap st) true cs in (s, PCommands cps)
        | Single c =>
            let '(s, ps) := walk_args (imageMap st) true (args c) in
            (s, PSingle {| p_command := c; p_args := ps |})
        end in
      (set_decodeLog (λ l, l ++ [(event, decoding_of pending)]) st,
       Walking status pending)
  end.

(** How the promises of a walk settle. *)
Definition settle_arg (p : ArgPromise) : option CanvasArg :=
  match p with
  | Settled v => Some v
  | Decoding _ payload => Decoded <$> decode payload
  end.

Definition settle_command (cp : CommandPromise) : option Command :=
  (λ args', {| method := method (p_command cp); args := args' |})
    <$> mapM settle_arg (p_args cp).

Definition remember (p : ArgPromise) (m : gmap Payload Handle) : gmap Payload Handle :=
  match p with
  | Settled _ => m
  | Decoding _ payload =>
      match decode payload with
      | Some h => <[payload := h]> m
      | None => m
      end
  end.

Definition remember_all (pending : MutationPromise) (m : gmap Payload Handle)
    : gmap Payload Handle :=
  match pending with
  | PCommands cps => foldr (λ cp m', foldr remember m' (p_args cp)) m cps
  | PSingle cp => foldr remember m (p_args cp)
  end.

(** [deserializeAndPreloadCanvasEvents] from its [await] on: the state it
    leaves and, when [Promise.all] rejects, what the call throws. *)
Definition deserializeAndPreloadCanvasEvents_resume (data : canvasMutationData)
    (event : EventId) (r : Resolution) (st : State) : State * option Thrown :=
  match r with
  | Cached => (st, None)
  | Walking isUnchanged pending =>
      let st1 := set_imageMap (remember_all pending) st in
      let resolved :=
        match pending with
        | PCommands cps => Commands <$> mapM settle_command cps
        | PSingle cp => Single <$> settle_command cp
        end in
      match resolved with
      | None => (st1, Some DecodeFailure)
      | Some m =>
          if isUnchanged then (st1, None)
          else (set_canvasEventMap
                  (insert event {| data_id := data_id data; mutation := m |}) st1,
                None)
      end
  end.

Definition cloneNode (node : SourceNode) : HTMLCanvasElement :=
  {| width := attr_width node; height := attr_height node; drawn := [] |}.

Definition cloneCanvas (id : Z) (node : SourceNode) (st : State)
    : State * HTMLCanvasElement :=
  let clone := cloneNode node in
  (set_canvases (insert id clone) st, clone).

Definition errorHandler (error : Thrown) (st : State) : State :=
  match error with
  | ErrorObject _ => set_captured (λ l, l ++ [error]) st
  | NonError _ => set_consoleErrors (λ l, l ++ [error]) st
  end.

(** How an asynchronous call stands once it has run as far as it can. *)
Inductive Completion :=
| Returned
| Threw (error : Thrown)
| Awaiting (t : Task).

Definition commands_of (m : Mutation) : list Command :=
  match m with
  | Commands cs => cs
  | Single c => [c]
  end.

(** [processMutation] up to [await canvasMutation(...)].  The mirror hands
    out the live node or null; reading [clientWidth] of null throws.
    [canvasMutation] is rrweb's: it picks the precomputed mutation of
    [canvasEventMap] or, failing that, the recorded one. *)
Definition processMutation (e : CanvasEventWithTime) (mirror : gmap Z SourceNode)
    (st : State) : State * Completion :=
  let data := c_data e in
  let source := mirror !! data_id data in
  let '(st1, target) :=
    match canvases st !! data_id data with
    | Some t => (st, Some t)
    | None =>
        match source with
        | Some node =>
            let '(st', clone) := cloneCanvas (data_id data) node st in (st', Some clone)
        | None => (st, None)
        end
    end in
  match target with
  | None => (st1, Returned)
  | Some t =>
      match source with
      | None => (st1, Threw (ErrorObject "TypeError"))
      | Some node =>
          let t' := {| width := clientWidth node; height := clientHeight node;
                       drawn := drawn t |} in
          let replay :=
            commands_of (mutation (default data (canvasEventMap st1 !! c_uid e))) in
          (set_canvases (insert (data_id data) t') st1,
           Awaiting (MutationTask e replay))
      end
  end.

(** Modelled from the spec: [canvasMutation], which the plugin imports from
    rrweb and only calls.  Once its decodes are through it replays the draw
    calls on the target in their original order; a call that throws is
    handed to [errorHandler] and the remaining calls still run. *)
Definition canvasMutation_resume (event : EventId) (replay : list Command)
    (target : HTMLCanvasElement) (st : State) : State * HTMLCanvasElement :=
  (foldl (λ s c, match drawCall c with Some err => errorHandler err s | None => s end)
     st replay,
   {| width := width target; height := height target;
      drawn := drawn target ++ map (pair event) replay |}).

(** [processMutation] from its [await] on.  [target] is the object that
    [canvases] holds under the id: entries of [canvases] are never replaced. *)
Definition processMutation_resume (e : CanvasEventWithTime) (replay : list Command)
    (st : State) : State :=
  let id := data_id (c_data e) in
  match canvases st !! id with
  | None => st
  | Some target =>
      let '(st1, target') := canvasMutation_resume (c_uid e) replay target st in
      let st2 := set_canvases (insert id target') st1 in
      match containers st2 !! id with
      | Some img => set_containers (insert id {| src := Some target' |}) st2
      | None => st2
      end
  end.

(** A call whose promise nobody holds ([void f()]): a rejection is lost. *)
Definition detach (r : State * Completion) : State :=
  match r.2 with
  | Returned => r.1
  | Threw error => set_unhandled (λ l, l ++ [error]) r.1
  | Awaiting t => spawn t r.1
  end.

(** The [for] loop of [preload], from any iteration on: it runs until an
    event passes the test and is parked at that event's [await]. *)
Fixpoint preload_loop (eventsToPreload : list CanvasEventWithTime) (st : State)
    : State * Completion :=
  match eventsToPreload with
  | [] => (st, Returned)
  | event :: rest =>
      if bool_decide (c_uid event ∉ preloadBuffer st)
         && bool_decide (canvasEventMap st !! c_uid event = None)
      then
        let st1 := set_preloadBuffer (union {[c_uid event]}) st in
        let '(st2, r) :=
          deserializeAndPreloadCanvasEvents (c_data event) (c_uid event) st1 in
        (st2, Awaiting (PreloadTask event rest r))
      else preload_loop rest st
  end.

(** The index [preload] starts from.  [nextPreloadIndex] and [currentEvent]
    are tested for truthiness: for the cursor, null and 0 both fall through. *)
Definition currentIndex (currentEvent : option CanvasEventWithTime) (st : State) : Z :=
  let located :=
    match currentEvent with
    | Some ev => findEvent (canvasMutationEvents st) ev
    | None => 0
    end in
  match nextPreloadIndex st with
  | Some n => if n =? 0 then located else n
  | None => located
  end.

Definition eventsToPreload (currentEvent : option CanvasEventWithTime) (st : State)
    : list CanvasEventWithTime :=
  slice (canvasMutationEvents st) (currentIndex currentEvent st)
    (currentIndex currentEvent st + PRELOAD_BUFFER_SIZE
     - Z.of_nat (size (preloadBuffer st))).

(** [preload(currentEvent)] up to its first [await]. *)
Definition preload (currentEvent : option CanvasEventWithTime) (st : State)
    : State * Completion :=
  preload_loop (eventsToPreload currentEvent st)
    (set_nextPreloadIndex (Some (currentIndex currentEvent st + 1)) st).

(** [preload] from the [await] of [event] on. *)
Definition preload_resume (event : CanvasEventWithTime)
    (rest : list CanvasEventWithTime) (r : Resolution) (st : State)
    : State * Completion :=
  match deserializeAndPreloadCanvasEvents_resume (c_data event) (c_uid event) r st with
  | (st1, Some error) => (st1, Threw error)
  | (st1, None) =>
      preload_loop rest (set_preloadBuffer (λ b, b ∖ {[c_uid event]}) st1)
  end.

(** A node handed to [onBuild]: null, or a node of the rebuilt tree. *)
Record BuiltNode := { nodeName : string; nodeType : Z }.

Definition onBuild (node : option BuiltNode) (id : Z) (st : State) : State :=
  match node with
  | None => st
  | Some n =>
      if bool_decide (nodeName n = "CANVAS") && (nodeType n =? 1)
      then
        let el := default {| src := None |} (containers st !! id) in
        set_containers (insert id el) st
      else st
  end.

Definition handler (e : eventWithTime) (isSync : bool) (mirror : gmap Z SourceNode)
    (st : State) : State :=
  if isSync then
    let st1 := set_nextPreloadIndex None st in
    match asCanvasMutation e with
    | Some ce => detach (processMutation ce mirror st1)
    | None => st1
    end
  else st.

(** ** Runs *)

(** What can happen to a plugin: one of its functions is called, or the
    promise that the [k]-th parked call waits for settles. *)
Inductive Action :=
| CallPreload (currentEvent : option CanvasEventWithTime)
| CallOnBuild (node : option BuiltNode) (id : Z)
| CallHandler (e : eventWithTime) (isSync : bool) (mirror : gmap Z SourceNode)
| Settle (k : nat).

Definition resume (t : Task) (st : State) : State :=
  match t with
  | PreloadTask event rest r => detach (preload_resume event rest r st)
  | MutationTask e replay => processMutation_resume e replay st
  end.

Definition step (st : State) (a : Action) : State :=
  match a with
  | CallPreload currentEvent => detach (preload currentEvent st)
  | CallOnBuild node id => onBuild node id st
  | CallHandler e isSync mirror => handler e isSync mirror st
  | Settle k =>
      match tasks st !! k with
      | Some t => resume t (set_tasks (delete k) st)
      | None => st
      end
  end.

Definition run (st : State) (l : list Action) : State := foldl step st l.

Definition fresh (events : list eventWithTime) : State :=
  {| canvasMutationEvents := omap asCanvasMutation events;
     canvases := ∅; containers := ∅; imageMap := ∅; canvasEventMap := ∅;
     preloadBuffer := ∅; nextPreloadIndex := None;
     tasks := []; captured := []; consoleErrors := []; unhandled := [];
     decodeLog := [] |}.

(** The constructor: the closure variables, then [void preload()]. *)
Definition CanvasReplayerPlugin (events : list eventWithTime) : State :=
  detach (preload None (fresh events)).

End Plugin.

(** ** The preload window *)

(** The event a parked [preload] call has put in [preloadBuffer] and is
    waiting on. *)
Definition holder (t : Task) : option EventId :=
  match t with
  | PreloadTask event _ _ => Some (c_uid event)
  | MutationTask _ _ => None
  end.

Definition holders (st : State) : list EventId := omap holder (tasks st).

(** What holds of the window in every state a plugin can get into. *)
Record window_inv (st : State) : Prop := {
  held_once : NoDup (holders st);
  held_in_window : ∀ u, u ∈ holders st → u ∈ preloadBuffer st;
  cached_out_of_window :
    ∀ u, is_Some (canvasEventMap st !! u) → u ∉ preloadBuffer st;
  window_bounded : Z.of_nat (size (preloadBuffer st)) ≤ PRELOAD_BUFFER_SIZE
}.

(** The resolutions of event [u] that handed a payload to the decoder. *)
Definition decoding_walks (u : EventId) (log : list (EventId * list Payload))
    : list (EventId * list Payload) :=
  filter (λ en, en.1 = u ∧ en.2 ≠ []) log.

(** An event that was decoded once is cached, or it is still in the window:
    held by a call that will cache it, or left there by a call that died. *)
Definition once_inv (st : State) : Prop :=
  ∀ u,
    decoding_walks u (decodeLog st) = []
    ∨ (∃ en, decoding_walks u (decodeLog st) = [en])
      ∧ (is_Some (canvasEventMap st !! u)
         ∨ u ∈ preloadBuffer st
           ∧ ∀ event rest r,
               PreloadTask event rest r ∈ tasks st → c_uid event = u →
               ∃ pending, r = Walking false pending).

(** ** Arguments that need decoding *)

Definition is_reference (arg : CanvasArg) : bool :=
  match arg with
  | SerializedReference _ _ => true
  | _ => false
  end.

Definition has_reference (d : canvasMutationData) : bool :=
  existsb (λ c, existsb is_reference (args c)) (commands_of (mutation d)).

(** ** Replaying on a target *)

(** The draw calls replayed so far on the target of a canvas id. *)
Definition drawn_on (id : Z) (st : State) : list (EventId * Command) :=
  match canvases st !! id with
  | Some target => drawn target
  | None => []
  end.

(** The draw calls an event has for the target of [id]: those of its
    precomputed mutation when [canvasEventMap] holds one. *)
Definition calls_for (cache : gmap EventId canvasMutationData) (id : Z)
    (e : eventWithTime) : list (EventId * Command) :=
  match asCanvasMutation e with
  | Some ce =>
      if data_id (c_data ce) =? id
      then map (pair (c_uid ce))
             (commands_of (mutation (default (c_data ce) (cache !! c_uid ce))))
      else []
  | None => []
  end.

(** ** Reading a run *)

Definition is_preload_call (a : Action) : bool :=
  match a with
  | CallPreload _ => true
  | _ => false
  end.

(** A delivery with [isSync = true]: fast forward or seek. *)
Definition is_seek (a : Action) : bool :=
  match a with
  | CallHandler _ true _ => true
  | _ => false
  end.

Definition is_canvas_node (n : BuiltNode) : bool :=
  bool_decide (nodeName n = "CANVAS") && (nodeType n =? 1).

(** [onBuild] called for a canvas element of id [id]. *)
Definition binds (id : Z) (a : Action) : bool :=
  match a with
  | CallOnBuild (Some n) id' => is_canvas_node n && (id' =? id)
  | _ => false
  end.

(** A canvas mutation for [id] delivered with [isSync = true] while the
    mirror has the node. *)
Definition reaches (id : Z) (a : Action) : bool :=
  match a with
  | CallHandler e true mirror =>
      match asCanvasMutation e with
      | Some ce =>
          (data_id (c_data ce) =? id) && bool_decide (is_Some (mirror !! id))
      | None => false
      end
  | _ => false
  end.

(** The outline of a mutation: batched or single, and per draw call its
    method and the number of its arguments. *)
Definition outline (m : Mutation) : bool * list (string * nat) :=
  (match m with Commands _ => true | Single _ => false end,
   map (λ c, (method c, length (args c))) (commands_of m)).

(** An event that [preload] passes over. *)
Definition passed_over (st : State) (event : CanvasEventWithTime) : Prop :=
  c_uid event ∈ preloadBuffer st ∨ is_Some (canvasEventMap st !! c_uid event).

Definition preload_calls (acts : list Action) : nat :=
  length (filter (λ a, is_preload_call a = true) acts).

(** ** Applies in flight *)

Definition is_apply_for (id : Z) (t : Task) : bool :=
  match t with
  | MutationTask e _ => data_id (c_data e) =? id
  | PreloadTask _ _ _ => false
  end.



(** The draw calls that a delivery hands to an apply for [id], if it starts
    one. *)
Definition taken_up (id : Z) (st : State) (a : Action) : list (EventId * Command) :=
  match a with
  | CallHandler e true _ =>
      if reaches id a then calls_for (canvasEventMap st) id e else []
  | _ => []
  end.



(** ** Dimensions of a target *)

Definition dimensions (target : HTMLCanvasElement) : Z * Z :=
  (width target, height target).

(** What an apply for [id] measures on the live node, if the action starts
    one that gets as far as the resize. *)
Definition measured (id : Z) (a : Action) : option (Z * Z) :=
  match a with
  | CallHandler e true mirror =>
      match asCanvasMutation e with
      | Some ce =>
          if data_id (c_data ce) =? id
          then (λ node, (clientWidth node, clientHeight node)) <$> mirror !! id
          else None
      | None => None
      end
  | _ => None
  end.

(** The measurement of the apply for [id] that started last. *)
Definition last_measured (id : Z) (acts : list Action) : option (Z * Z) :=
  last (omap (measured id) acts).

Section Deliveries.

Variable decode : Payload → option Handle.
Variable drawCall : Command → option Thrown.

(** The draw calls for [id] in the order in which a run delivers them. *)
Fixpoint delivered (id : Z) (st : State) (acts : list Action)
    : list (EventId * Command) :=
  match acts with
  | [] => []
  | a :: acts' => taken_up id st a ++ delivered id (step decode drawCall st a) acts'
  end.

(** No apply for [id] starts while another apply for [id] is parked. *)
Fixpoint one_apply_at_a_time (id : Z) (st : State) (acts : list Action) : bool :=
  match acts with
  | [] => true
  | a :: acts' =>
      (negb (reaches id a) || negb (existsb (is_apply_for id) (tasks st)))
      && one_apply_at_a_time id (step decode drawCall st a) acts'
  end.

End Deliveries.

(** ** Sample recordings *)

Definition fillRect (x : Z) : Command :=
  {| method := "fillRect";
     args := [Primitive x; Primitive 0; Primitive 10; Primitive 10] |}.

Definition clearRect (x : Z) : Command :=
  {| method := "clearRect";
     args := [Primitive x; Primitive 0; Primitive 5; Primitive 5] |}.

Definition drawImage (payload : Payload) : Command :=
  {| method := "drawImage";
     args := [SerializedReference "ImageBitmap" payload; Primitive 0; Primitive 0] |}.

Definition narrowed (u : EventId) (id : Z) (c : Command) : CanvasEventWithTime :=
  {| c_uid := u; c_timestamp := Z.of_nat u;
     c_data := {| data_id := id; mutation := Single c |} |}.

Definition canvas_event (u : EventId) (id : Z) (c : Command) : eventWithTime :=
  {| uid := u; timestamp := Z.of_nat u; ev_type := IncrementalSnapshot;
     data := CanvasMutationSource {| data_id := id; mutation := Single c |} |}.

Definition meta_event (u : EventId) : eventWithTime :=
  {| uid := u; timestamp := Z.of_nat u; ev_type := Meta; data := OtherSource |}.

(** A decoder that chokes on payload 0. *)
Definition sample_decode (payload : Payload) : option Handle :=
  match payload with
  | O => None
  | S _ => Some (100 + payload)%nat
  end.

(** A decoder that never fails. *)
Definition steady_decode (payload : Payload) : option Handle :=
  Some (100 + payload)%nat.

Definition canvas_node : BuiltNode := {| nodeName := "CANVAS"; nodeType := 1 |}.

Definition sample_drawCall (c : Command) : option Thrown := None.

Definition sample_node (w h : Z) : SourceNode :=
  {| attr_width := 300; attr_height := 150; clientWidth := w; clientHeight := h |}.

(** * Proofs *)

Section Behaviour.

Variable decode : Payload → option Handle.
Variable drawCall : Command → option Thrown.

Lemma slice_same {A} (l : list A) (i : Z) : slice l i i = [].
Proof. unfold slice. by rewrite Z.sub_diag. Qed.

Lemma deserialize_window d u st :
  preloadBuffer (deserializeAndPreloadCanvasEvents d u st).1 = preloadBuffer st
  ∧ canvasEventMap (deserializeAndPreloadCanvasEvents d u st).1 = canvasEventMap st
  ∧ tasks (deserializeAndPreloadCanvasEvents d u st).1 = tasks st.
Proof.
  unfold deserializeAndPreloadCanvasEvents.
  destruct (canvasEventMap st !! u); [done |].
  by repeat case_match.
Qed.

Lemma deserialize_resume_window d u r st :
  let res := deserializeAndPreloadCanvasEvents_resume decode d u r st in
  preloadBuffer res.1 = preloadBuffer st ∧ tasks res.1 = tasks st
  ∧ decodeLog res.1 = decodeLog st
  ∧ (canvasEventMap res.1 = canvasEventMap st
     ∨ res.2 = None ∧ ∃ m, canvasEventMap res.1 = <[u := m]> (canvasEventMap st)).
Proof.
  unfold deserializeAndPreloadCanvasEvents_resume.
  destruct r as [| isUnchanged pending]; cbn; [by auto |].
  repeat case_match; cbn; eauto 10.
Qed.

(** The loop either runs to its end and changes nothing, or parks at the
    first event that is neither in the window nor cached. *)
Lemma preload_loop_spec evs st :
  preload_loop evs st = (st, Returned)
  ∨ ∃ event rest st',
      preload_loop evs st
      = (st', Awaiting (PreloadTask event rest
           (deserializeAndPreloadCanvasEvents (c_data event) (c_uid event)
              (set_preloadBuffer (union {[c_uid event]}) st)).2))
      ∧ st' = (deserializeAndPreloadCanvasEvents (c_data event) (c_uid event)
                 (set_preloadBuffer (union {[c_uid event]}) st)).1
      ∧ (c_uid event ∉ preloadBuffer st)
      ∧ canvasEventMap st !! c_uid event = None
      ∧ ∃ skipped, evs = skipped ++ event :: rest.
Proof.
  induction evs as [| event rest IH]; cbn; [by left |].
  destruct (bool_decide (c_uid event ∉ preloadBuffer st)) eqn:Hb; cbn.
  - destruct (bool_decide (canvasEventMap st !! c_uid event = None)) eqn:Hm; cbn.
    + right. exists event, rest. eexists. split; [| split; [reflexivity |]].
      * by destruct (deserializeAndPreloadCanvasEvents _ _ _).
      * apply bool_decide_eq_true in Hb, Hm. split_and!; [done | done |].
        by exists [].
    + destruct IH as [IH | (ev & rs & st' & ? & ? & ? & ? & sk & ->)]; [by left |].
      right. exists ev, rs, st'. split_and!; try done. by exists (event :: sk).
  - destruct IH as [IH | (ev & rs & st' & ? & ? & ? & ? & sk & ->)]; [by left |].
    right. exists ev, rs, st'. split_and!; try done. by exists (event :: sk).
Qed.

Lemma holders_delete st k t :
  tasks st !! k = Some t →
  ∃ h1 h2,
    holders st = h1 ++ option_list (holder t) ++ h2
    ∧ holders (set_tasks (delete k) st) = h1 ++ h2.
Proof.
  intros Hk. exists (omap holder (take k (tasks st))), (omap holder (drop (S k) (tasks st))).
  unfold holders; cbn. rewrite delete_take_drop, omap_app. split; [| done].
  rewrite <- (take_drop_middle _ _ _ Hk) at 1. rewrite omap_app. cbn.
  by destruct (holder t).
Qed.

(** Running the loop keeps the window in order, as long as it starts with
    room for one more event. *)
Lemma window_inv_loop evs st :
  NoDup (holders st) →
  (∀ u, u ∈ holders st → u ∈ preloadBuffer st) →
  (∀ u, is_Some (canvasEventMap st !! u) → u ∉ preloadBuffer st) →
  Z.of_nat (size (preloadBuffer st)) ≤ PRELOAD_BUFFER_SIZE →
  Z.of_nat (size (preloadBuffer st)) < PRELOAD_BUFFER_SIZE ∨ evs = [] →
  window_inv (detach (preload_loop evs st)).
Proof.
  intros Hnd Hheld Hcached Hle Hroom.
  destruct (preload_loop_spec evs st)
    as [-> | (event & rest & st' & -> & -> & Hfresh & Hnone & sk & ->)]; cbn.
  { by constructor. }
  destruct Hroom as [Hlt | Hnil]; [| by destruct sk].
  pose proof (deserialize_window (c_data event) (c_uid event)
    (set_preloadBuffer (union {[c_uid event]}) st)) as (Hbuf & Hmap & Htasks).
  cbn in Hbuf, Hmap, Htasks.
  constructor; unfold holders; cbn; rewrite ?Hbuf, ?Hmap, ?Htasks.
  - constructor; [| done]. intros Hin. by apply Hfresh, Hheld.
  - intros u [-> | Hin]%elem_of_cons; [set_solver |].
    apply elem_of_union_r. by apply Hheld.
  - intros u Hu [->%elem_of_singleton | Hin]%elem_of_union.
    + rewrite Hnone in Hu. by destruct Hu.
    + by apply (Hcached u).
  - rewrite size_union by set_solver. rewrite size_singleton. lia.
Qed.

Lemma onBuild_window node id st :
  preloadBuffer (onBuild node id st) = preloadBuffer st
  ∧ canvasEventMap (onBuild node id st) = canvasEventMap st
  ∧ decodeLog (onBuild node id st) = decodeLog st
  ∧ tasks (onBuild node id st) = tasks st.
Proof. unfold onBuild. by repeat case_match. Qed.

Lemma processMutation_window e mirror st :
  let st' := detach (processMutation e mirror st) in
  preloadBuffer st' = preloadBuffer st
  ∧ canvasEventMap st' = canvasEventMap st
  ∧ decodeLog st' = decodeLog st
  ∧ (tasks st' = tasks st ∨ ∃ replay, tasks st' = MutationTask e replay :: tasks st).
Proof.
  unfold processMutation, cloneCanvas.
  repeat case_match; simplify_eq; cbn; eauto 10.
Qed.

Lemma handler_window e isSync mirror st :
  let st' := handler e isSync mirror st in
  preloadBuffer st' = preloadBuffer st
  ∧ canvasEventMap st' = canvasEventMap st
  ∧ decodeLog st' = decodeLog st
  ∧ (tasks st' = tasks st ∨ ∃ ce replay, tasks st' = MutationTask ce replay :: tasks st).
Proof.
  unfold handler. destruct isSync; [| by auto].
  destruct (asCanvasMutation e) as [ce |]; [| by auto].
  destruct (processMutation_window ce mirror (set_nextPreloadIndex None st))
    as (? & ? & ? & [? | [replay ?]]); cbn in *; eauto 10.
Qed.

Lemma errors_window replay st :
  let st' := foldl (λ s c, match drawCall c with
                           | Some err => errorHandler err s
                           | None => s
                           end) st replay in
  preloadBuffer st' = preloadBuffer st
  ∧ canvasEventMap st' = canvasEventMap st
  ∧ decodeLog st' = decodeLog st
  ∧ tasks st' = tasks st
  ∧ canvases st' = canvases st
  ∧ containers st' = containers st.
Proof.
  revert st. induction replay as [| c replay IH]; intros st; cbn; [done |].
  destruct (IH (match drawCall c with
                | Some err => errorHandler err st
                | None => st
                end)) as (-> & -> & -> & -> & -> & ->).
  destruct (drawCall c) as [[] |]; done.
Qed.

Lemma processMutation_resume_window e replay st :
  let st' := processMutation_resume drawCall e replay st in
  preloadBuffer st' = preloadBuffer st
  ∧ canvasEventMap st' = canvasEventMap st
  ∧ decodeLog st' = decodeLog st
  ∧ tasks st' = tasks st.
Proof.
  unfold processMutation_resume, canvasMutation_resume.
  destruct (canvases st !! data_id (c_data e)); [| done].
  destruct (errors_window replay st) as (? & ? & ? & ? & ? & ?).
  by case_match.
Qed.

(** Where a parked [preload] call stands when its resolution has come
    back: its task is off the list and its event is out of the window. *)
Lemma holders_settled st k event rest r :
  window_inv st →
  tasks st !! k = Some (PreloadTask event rest r) →
  NoDup (holders (set_tasks (delete k) st))
  ∧ (c_uid event ∉ holders (set_tasks (delete k) st))
  ∧ (c_uid event ∈ preloadBuffer st)
  ∧ ∀ u, u ∈ holders (set_tasks (delete k) st) → u ∈ preloadBuffer st.
Proof.
  intros [Hnd Hheld _ _] Hk.
  destruct (holders_delete st k _ Hk) as (h1 & h2 & Hh & ->).
  rewrite Hh in Hnd, Hheld. cbn in *.
  apply NoDup_app in Hnd as (Hnd1 & Hdisj & [Hnotin Hnd2]%NoDup_cons).
  split_and!.
  - apply NoDup_app. split_and!; [done | | done].
    intros u Hu1 Hu2. apply (Hdisj u Hu1). by right.
  - intros [Hu | Hu]%elem_of_app; [| done]. apply (Hdisj _ Hu). by left.
  - apply Hheld. set_solver.
  - intros u Hu. apply Hheld. set_solver.
Qed.

Lemma settled_window st k event rest r st1 :
  window_inv st →
  tasks st !! k = Some (PreloadTask event rest r) →
  deserializeAndPreloadCanvasEvents_resume decode (c_data event) (c_uid event) r
    (set_tasks (delete k) st) = (st1, None) →
  let st2 := set_preloadBuffer (λ b, b ∖ {[c_uid event]}) st1 in
  NoDup (holders st2)
  ∧ (∀ u, u ∈ holders st2 → u ∈ preloadBuffer st2)
  ∧ (∀ u, is_Some (canvasEventMap st2 !! u) → u ∉ preloadBuffer st2)
  ∧ Z.of_nat (size (preloadBuffer st2)) < PRELOAD_BUFFER_SIZE.
Proof.
  intros Hinv Hk Hres.
  destruct (holders_settled st k event rest r Hinv Hk) as (Hnd & Hout & Hin & Hheld).
  destruct Hinv as [_ _ Hcached Hle].
  pose proof (deserialize_resume_window (c_data event) (c_uid event) r
    (set_tasks (delete k) st)) as (Hbuf & Htasks & _ & Hmap).
  rewrite Hres in Hbuf, Htasks, Hmap. cbn in Hbuf, Htasks, Hmap.
  unfold holders in *; cbn in *. rewrite Hbuf, Htasks. split_and!.
  - done.
  - intros u Hu. apply elem_of_difference. split; [by apply Hheld |].
    by intros ->%elem_of_singleton.
  - intros u Hu [Hu1 Hu2]%elem_of_difference.
    destruct Hmap as [Hmap | [_ [m Hmap]]]; rewrite Hmap in Hu.
    + by apply (Hcached u).
    + rewrite lookup_insert in Hu. case_decide; [set_solver |].
      by apply (Hcached u).
  - rewrite size_difference by set_solver. rewrite size_singleton.
    assert (size (preloadBuffer st) ≠ 0)%nat.
    { intros Hz. apply size_empty_inv in Hz. set_solver. }
    lia.
Qed.

Lemma window_inv_step st a : window_inv st → window_inv (step decode drawCall st a).
Proof.
  intros Hinv. pose proof Hinv as [Hnd Hheld Hcached Hle].
  destruct a as [currentEvent | node id | e isSync mirror | k]; unfold step.
  - unfold preload. apply window_inv_loop; try done.
    unfold eventsToPreload; cbn.
    destruct (decide (Z.of_nat (size (preloadBuffer st)) = PRELOAD_BUFFER_SIZE))
      as [-> | Hne]; [right | left; lia].
    rewrite Z.add_simpl_r. apply slice_same.
  - destruct (onBuild_window node id st) as (Hbuf & Hmap & _ & Htasks).
    constructor; unfold holders; by rewrite ?Hbuf, ?Hmap, ?Htasks.
  - destruct (handler_window e isSync mirror st) as (Hbuf & Hmap & _ & Htasks).
    destruct Htasks as [Htasks | (ce & replay & Htasks)];
      constructor; unfold holders; by rewrite ?Hbuf, ?Hmap, ?Htasks.
  - destruct (tasks st !! k) as [t |] eqn:Hk; [| done].
    destruct t as [event rest r | e replay]; cbn.
    + unfold preload_resume.
      destruct (deserializeAndPreloadCanvasEvents_resume decode (c_data event)
        (c_uid event) r (set_tasks (delete k) st)) as [st1 [error |]] eqn:Hres.
      * destruct (holders_settled st k event rest r Hinv Hk) as (Hnd' & _ & _ & Hheld').
        pose proof (deserialize_resume_window (c_data event) (c_uid event) r
          (set_tasks (delete k) st)) as (Hbuf & Htasks & _ & Hmap).
        rewrite Hres in Hbuf, Htasks, Hmap. cbn in Hbuf, Htasks, Hmap.
        destruct Hmap as [Hmap | [? _]]; [| done].
        constructor; unfold holders in *; cbn in *; by rewrite ?Hbuf, ?Htasks, ?Hmap.
      * destruct (settled_window st k event rest r st1 Hinv Hk Hres)
          as (? & ? & ? & ?).
        apply window_inv_loop; try done; [lia | by left].
    + destruct (holders_delete st k _ Hk) as (h1 & h2 & Hh & Hh'). cbn in Hh.
      destruct (processMutation_resume_window e replay (set_tasks (delete k) st))
        as (Hbuf & Hmap & _ & Htasks). cbn in Hbuf, Hmap, Htasks.
      cbn in Hh'. rewrite <- Hh in Hh'.
      constructor; unfold holders in *; by rewrite ?Hbuf, ?Hmap, ?Htasks, ?Hh'.
Qed.

Lemma window_inv_run st acts : window_inv st → window_inv (run decode drawCall st acts).
Proof.
  revert st. induction acts as [| a acts IH]; intros st Hst; [done |].
  apply IH. by apply window_inv_step.
Qed.

Lemma window_inv_plugin events : window_inv (CanvasReplayerPlugin events).
Proof.
  unfold CanvasReplayerPlugin, preload.
  apply window_inv_loop; cbn; try done.
  - constructor.
  - by intros u ?%elem_of_nil.
  - left. by rewrite size_empty.
Qed.

(** C1: whatever is called on a plugin and in whatever order its parked
    calls are resumed, [preloadBuffer] never holds more than
    [PRELOAD_BUFFER_SIZE] = 30 events. *)
Theorem preload_window_bounded events acts :
  Z.of_nat (size (preloadBuffer (run decode drawCall (CanvasReplayerPlugin events) acts)))
  ≤ PRELOAD_BUFFER_SIZE.
Proof. apply window_bounded, window_inv_run, window_inv_plugin. Qed.

(** ** Where [preload] starts *)

(** [findIndex] finds the first element that passes. *)
Lemma findIndex_first {A} (p : A → bool) (l : list A) (k : nat) (x : A) :
  l !! k = Some x → p x = true →
  (∀ j y, (j < k)%nat → l !! j = Some y → p y = false) →
  findIndex p l = Z.of_nat k.
Proof.
  revert k. induction l as [| a l IH]; intros k Hk Hx Hbefore; [done |].
  destruct k as [| k]; cbn in *.
  - simplify_eq. by rewrite Hx.
  - rewrite (Hbefore 0%nat a) by (done || lia).
    rewrite (IH k Hk Hx).
    + destruct (Z.ltb_spec (Z.of_nat k) 0); lia.
    + intros j y Hj Hy. apply (Hbefore (S j) y); [lia | done].
Qed.

(** Given an event, [findEvent] locates the first event for the same canvas:
    the given event only if no earlier one draws on its canvas. *)
Lemma findEvent_first_of_canvas events k target :
  events !! k = Some target →
  (∀ j e, (j < k)%nat → events !! j = Some e →
          data_id (c_data e) ≠ data_id (c_data target)) →
  findEvent events target = Z.of_nat k.
Proof.
  intros Hk Hbefore. unfold findEvent. apply (findIndex_first _ _ k target Hk).
  - apply Z.eqb_refl.
  - intros j e Hj He. apply Z.eqb_neq. by eapply Hbefore.
Qed.

(** With no cursor and no event, [preload] starts at index 0. *)
Lemma currentIndex_from_scratch st :
  nextPreloadIndex st = None → currentIndex None st = 0.
Proof. intros Hn. unfold currentIndex. by rewrite Hn. Qed.

(** ** Decoding an event once *)

Lemma walk_args_status m s l s' ps :
  walk_args m s l = (s', ps) →
  (s = false → s' = false) ∧ (decoding ps ≠ [] → s' = false).
Proof.
  revert s s' ps. induction l as [| a l IH]; intros s s' ps; cbn.
  { by intros [= <- <-]. }
  destruct (deserializeCanvasArg m s a) as [s1 p] eqn:Ha.
  destruct (walk_args m s1 l) as [s2 ps2] eqn:Hl. intros [= <- <-].
  destruct (IH _ _ _ Hl) as [IH1 IH2].
  destruct a; cbn in Ha; simplify_eq; cbn; auto.
Qed.

Lemma walk_commands_status m s cs s' cps :
  walk_commands m s cs = (s', cps) →
  (s = false → s' = false)
  ∧ (concat (map (λ cp, decoding (p_args cp)) cps) ≠ [] → s' = false).
Proof.
  revert s s' cps. induction cs as [| c cs IH]; intros s s' cps; cbn.
  { by intros [= <- <-]. }
  destruct (walk_args m s (args c)) as [s1 ps] eqn:Ha.
  destruct (walk_commands m s1 cs) as [s2 cps2] eqn:Hc. intros [= <- <-].
  destruct (IH _ _ _ Hc) as [IH1 IH2].
  destruct (walk_args_status _ _ _ _ _ Ha) as [Ha1 Ha2].
  split; [by auto |]. cbn. fold (decoding ps). intros Hne.
  destruct (decoding ps) eqn:Hps; [by apply IH2 |].
  by apply IH1, Ha2.
Qed.

(** A resolution that is not cut short by the cache logs its walk, and its
    [status] says whether the walk met a reference. *)
Lemma deserialize_spec d u st :
  canvasEventMap st !! u = None →
  ∃ s p,
    deserializeAndPreloadCanvasEvents d u st
    = (set_decodeLog (λ l, l ++ [(u, decoding_of p)]) st, Walking s p)
    ∧ (decoding_of p ≠ [] → s = false).
Proof.
  intros Hnone. unfold deserializeAndPreloadCanvasEvents. rewrite Hnone.
  destruct (mutation d) as [cs | c].
  - destruct (walk_commands (imageMap st) true cs) as [s cps] eqn:Hw.
    exists s, (PCommands cps). split; [done |].
    by apply (walk_commands_status _ _ _ _ _ Hw).
  - destruct (walk_args (imageMap st) true (args c)) as [s ps] eqn:Hw.
    exists s, (PSingle {| p_command := c; p_args := ps |}). split; [done |].
    by apply (walk_args_status _ _ _ _ _ Hw).
Qed.

Lemma deserialize_resume_caches d u p st st1 :
  deserializeAndPreloadCanvasEvents_resume decode d u (Walking false p) st = (st1, None) →
  is_Some (canvasEventMap st1 !! u).
Proof.
  unfold deserializeAndPreloadCanvasEvents_resume.
  case_match; intros [= <-]; cbn. rewrite lookup_insert_eq. by eexists.
Qed.

Lemma holder_of_task st event rest r :
  PreloadTask event rest r ∈ tasks st → c_uid event ∈ holders st.
Proof. intros Hin. apply list_elem_of_omap. by eexists. Qed.

Lemma once_inv_loop evs st :
  (∀ u, u ∈ holders st → u ∈ preloadBuffer st) →
  once_inv st → once_inv (detach (preload_loop evs st)).
Proof.
  intros Hheld Honce.
  destruct (preload_loop_spec evs st)
    as [-> | (event & rest & st' & -> & -> & Hfresh & Hnone & _)]; [done |].
  destruct (deserialize_spec (c_data event) (c_uid event)
    (set_preloadBuffer (union {[c_uid event]}) st) Hnone) as (s & p & -> & Hs).
  intros u. unfold decoding_walks. cbn. rewrite filter_app.
  destruct (decide (u = c_uid event)) as [-> | Hne].
  - destruct (Honce (c_uid event)) as [Hnil | [_ [Hsome | [Hin _]]]].
    + unfold decoding_walks in Hnil. rewrite Hnil. cbn.
      case_decide as Hd; [| by left].
      right. split; [by eexists |]. right. split; [set_solver |].
      intros ev rs r [Heq | Hin]%elem_of_cons Hu.
      * simplify_eq. exists p. f_equal. apply Hs. by destruct Hd.
      * exfalso. apply Hfresh, Hheld. rewrite <- Hu. by eapply holder_of_task.
    + rewrite Hnone in Hsome. by destruct Hsome.
    + done.
  - rewrite filter_cons, filter_nil.
    case_decide as Hd; [destruct Hd as [Hd _]; cbn in Hd; congruence |].
    rewrite app_nil_r. destruct (Honce u) as [Hnil | [Hen Hwhere]]; [by left |].
    right. split; [done |]. destruct Hwhere as [Hsome | [Hin Hframes]]; [by left |].
    right. split; [set_solver |].
    intros ev rs r [Heq | Hin']%elem_of_cons Hu; [by simplify_eq | by eapply Hframes].
Qed.

(** [once_inv] looks at the log, the cache, the window and the parked
    [preload] calls only; it survives when calls go off the list. *)
Lemma once_inv_frame st st' :
  decodeLog st' = decodeLog st →
  canvasEventMap st' = canvasEventMap st →
  preloadBuffer st' = preloadBuffer st →
  (∀ event rest r, PreloadTask event rest r ∈ tasks st' →
                   PreloadTask event rest r ∈ tasks st) →
  once_inv st → once_inv st'.
Proof.
  intros Hlog Hmap Hbuf Htasks Honce u. rewrite Hlog, Hmap, Hbuf.
  destruct (Honce u) as [Hnil | [Hen [Hsome | [Hin Hframes]]]]; [by left | by auto |].
  right. split; [done |]. right. split; [done |].
  intros event rest r Hin'. by eapply Hframes, Htasks.
Qed.

Lemma once_inv_step st a :
  window_inv st → once_inv st → once_inv (step decode drawCall st a).
Proof.
  intros Hinv Honce. pose proof Hinv as [Hnd Hheld Hcached Hle].
  destruct a as [currentEvent | node id | e isSync mirror | k]; unfold step.
  - unfold preload. by apply once_inv_loop.
  - destruct (onBuild_window node id st) as (Hbuf & Hmap & Hlog & Htasks).
    apply (once_inv_frame st); try done. by rewrite Htasks.
  - destruct (handler_window e isSync mirror st) as (Hbuf & Hmap & Hlog & Htasks).
    apply (once_inv_frame st); try done.
    destruct Htasks as [-> | (ce & replay & ->)]; [done |].
    by intros ev rs r [? | ?]%elem_of_cons.
  - destruct (tasks st !! k) as [t |] eqn:Hk; [| done].
    destruct t as [event rest r | e replay]; cbn.
    + unfold preload_resume.
      pose proof (deserialize_resume_window (c_data event) (c_uid event) r
        (set_tasks (delete k) st)) as (Hbuf & Htasks & Hlog & Hmap).
      destruct (deserializeAndPreloadCanvasEvents_resume decode (c_data event)
        (c_uid event) r (set_tasks (delete k) st)) as [st1 [error |]] eqn:Hres;
        cbn in Hbuf, Htasks, Hlog, Hmap.
      * destruct Hmap as [Hmap | [? _]]; [| done].
        apply (once_inv_frame st); try done. cbn. rewrite Htasks.
        intros ev rs r' Hin'. by eapply list_elem_of_delete_inv.
      * destruct (settled_window st k event rest r st1 Hinv Hk Hres) as (_ & Hheld' & _ & _).
        apply once_inv_loop; [done |].
        intros u. cbn. rewrite Hbuf, Htasks, Hlog.
        destruct (Honce u) as [Hnil | [Hen Hwhere]]; [by left |].
        right. split; [done |].
        assert (is_Some (canvasEventMap st !! u) → is_Some (canvasEventMap st1 !! u))
          as Hmono.
        { destruct Hmap as [-> | [_ [m ->]]]; [done |].
          rewrite lookup_insert. by case_decide. }
        destruct Hwhere as [Hsome | [Hin Hframes]]; [by left; auto |].
        destruct (decide (u = c_uid event)) as [-> | Hne].
        -- left. destruct (Hframes event rest r) as [p ->]; [| done |].
           ++ by eapply list_elem_of_lookup_2.
           ++ by eapply deserialize_resume_caches.
        -- right. split; [set_solver |].
           intros ev rs r' Hin' Hu. eapply Hframes; [| done].
           by eapply list_elem_of_delete_inv.
    + destruct (processMutation_resume_window e replay (set_tasks (delete k) st))
        as (Hbuf & Hmap & Hlog & Htasks). cbn in Hbuf, Hmap, Hlog, Htasks.
      apply (once_inv_frame st); try done. rewrite Htasks.
      intros ev rs r' Hin'. by eapply list_elem_of_delete_inv.
Qed.

Lemma once_inv_run st acts :
  window_inv st → once_inv st → once_inv (run decode drawCall st acts).
Proof.
  revert st. induction acts as [| a acts IH]; intros st Hw Ho; [done |].
  apply IH; [by apply window_inv_step | by apply once_inv_step].
Qed.

Lemma once_inv_plugin events : once_inv (CanvasReplayerPlugin events).
Proof.
  unfold CanvasReplayerPlugin, preload. apply once_inv_loop.
  - by intros u ?%elem_of_nil.
  - intros u. by left.
Qed.

(** C3 (as the code has it): through [preload], the one caller of
    [deserializeAndPreloadCanvasEvents], an event is handed to the decoder in
    at most one resolution over a whole run, however the parked calls are
    interleaved: an event in the window or in the cache is passed over. *)
Theorem preload_decodes_an_event_once events acts u :
  (length (decoding_walks u
     (decodeLog (run decode drawCall (CanvasReplayerPlugin events) acts))) ≤ 1)%nat.
Proof.
  destruct (once_inv_run (CanvasReplayerPlugin events) acts
              (window_inv_plugin events) (once_inv_plugin events) u)
    as [-> | [[en ->] _]]; cbn; lia.
Qed.

(** ** Leaving the window *)

Lemma preload_loop_map evs st :
  canvasEventMap (detach (preload_loop evs st)) = canvasEventMap st.
Proof.
  destruct (preload_loop_spec evs st)
    as [-> | (event & rest & st' & -> & -> & _)]; [done |].
  cbn. by destruct (deserialize_window (c_data event) (c_uid event)
    (set_preloadBuffer (union {[c_uid event]}) st)) as (_ & -> & _).
Qed.




(** ** What gets cached *)

Lemma mapM_cons_Some {A B} (f : A → option B) x l y k :
  mapM f (x :: l) = Some (y :: k) → f x = Some y ∧ mapM f l = Some k.
Proof.
  cbn. destruct (f x) as [y' |]; [| done]. cbn.
  destruct (mapM f l) as [k' |]; [| done]. by intros [= -> ->].
Qed.

Lemma walk_args_settle_same m s l s' ps :
  walk_args m s l = (s', ps) → mapM (settle_arg decode) ps = Some l → s' = s.
Proof.
  revert s s' ps. induction l as [| a l IH]; intros s s' ps; cbn.
  { by intros [= <- <-]. }
  destruct (deserializeCanvasArg m s a) as [s1 p] eqn:Ha.
  destruct (walk_args m s1 l) as [s2 ps2] eqn:Hl. intros [= <- <-].
  intros [Hp Hps]%mapM_cons_Some.
  rewrite (IH _ _ _ Hl Hps).
  destruct a; cbn in Ha; simplify_eq; try done.
  destruct (m !! payload); cbn in Hp; [done |].
  by destruct (decode payload).
Qed.

Lemma walk_commands_settle_same m s cs s' cps :
  walk_commands m s cs = (s', cps) →
  mapM (settle_command decode) cps = Some cs → s' = s.
Proof.
  revert s s' cps. induction cs as [| c cs IH]; intros s s' cps; cbn.
  { by intros [= <- <-]. }
  destruct (walk_args m s (args c)) as [s1 ps] eqn:Ha.
  destruct (walk_commands m s1 cs) as [s2 cps2] eqn:Hc. intros [= <- <-].
  intros [Hp Hcs]%mapM_cons_Some.
  rewrite (IH _ _ _ Hc Hcs). eapply walk_args_settle_same; [done |].
  unfold settle_command in Hp. cbn in Hp.
  destruct (mapM (settle_arg decode) ps) as [args' |]; [| done].
  injection Hp as Hp. by rewrite <- Hp.
Qed.

Lemma walk_args_plain m s l :
  existsb is_reference l = false → (walk_args m s l).1 = s.
Proof.
  revert s. induction l as [| a l IH]; intros s; cbn; [done |].
  intros [Ha Hl]%orb_false_elim. specialize (IH s Hl).
  destruct a; try done; cbn; by destruct (walk_args m s l).
Qed.

Lemma walk_commands_plain m s cs :
  existsb (λ c, existsb is_reference (args c)) cs = false →
  (walk_commands m s cs).1 = s.
Proof.
  revert s. induction cs as [| c cs IH]; intros s; cbn; [done |].
  intros [Hc Hcs]%orb_false_elim.
  pose proof (walk_args_plain m s (args c) Hc) as Ha.
  destruct (walk_args m s (args c)) as [s1 ps]. cbn in Ha. subst s1.
  specialize (IH s Hcs). by destruct (walk_commands m s cs).
Qed.

(** C4: resolving a mutation none of whose arguments is a
    SerializedReference stores nothing in [canvasEventMap]; when a
    resolution does store an entry, the stored mutation differs from the
    recorded one.  [st'] is the state the call finds when it is resumed. *)
Theorem unchanged_mutation_is_not_cached d u st st' :
  let begun := deserializeAndPreloadCanvasEvents d u st in
  let ended := deserializeAndPreloadCanvasEvents_resume decode d u begun.2 st' in
  canvasEventMap begun.1 = canvasEventMap st
  ∧ (has_reference d = false → canvasEventMap ended.1 = canvasEventMap st')
  ∧ (canvasEventMap ended.1 ≠ canvasEventMap st' →
     ∃ m, m ≠ mutation d
          ∧ canvasEventMap ended.1
            = <[u := {| data_id := data_id d; mutation := m |}]> (canvasEventMap st')).
Proof.
  cbn. split; [by destruct (deserialize_window d u st) as (_ & -> & _) |].
  unfold deserializeAndPreloadCanvasEvents, has_reference.
  destruct (canvasEventMap st !! u); cbn; [done |].
  destruct (mutation d) as [cs | c] eqn:Hd; cbn.
  - pose proof (walk_commands_plain (imageMap st) true cs) as Hplain.
    destruct (walk_commands (imageMap st) true cs) as [s cps] eqn:Hw; cbn in *.
    destruct (mapM (settle_command decode) cps) as [cs' |] eqn:Hcs; cbn.
    + destruct s; cbn; [done |]. split.
      * intros Hno. by specialize (Hplain Hno).
      * intros _. exists (Commands cs'). split; [| done]. intros [= ->].
        by pose proof (walk_commands_settle_same _ _ _ _ _ Hw Hcs).
    + done.
  - rewrite orb_false_r.
    pose proof (walk_args_plain (imageMap st) true (args c)) as Hplain.
    destruct (walk_args (imageMap st) true (args c)) as [s ps] eqn:Hw; cbn in *.
    unfold settle_command; cbn.
    destruct (mapM (settle_arg decode) ps) as [args' |] eqn:Hps; cbn.
    + destruct s; cbn; [done |]. split.
      * intros Hno. by specialize (Hplain Hno).
      * intros _. eexists. split; [| done]. intros [= Heq]. rewrite <- Heq in Hw.
        cbn in Hw. by pose proof (walk_args_settle_same _ _ _ _ _ Hw Hps).
    + done.
Qed.

(** ** The handler *)

(** C10: an event delivered with [isSync = false] leaves the plugin as it
    was: cursor, window, caches, targets, placeholders and parked calls. *)
Theorem handler_ignores_normal_playback e mirror st :
  step decode drawCall st (CallHandler e false mirror) = st.
Proof. reflexivity. Qed.

(** ** Applying a mutation *)

(** What [processMutation] does when the mirror has the node. *)
Lemma processMutation_live e mirror node st :
  mirror !! data_id (c_data e) = Some node →
  processMutation e mirror st
  = (set_canvases
       (insert (data_id (c_data e))
          {| width := clientWidth node; height := clientHeight node;
             drawn := drawn_on (data_id (c_data e)) st |}) st,
     Awaiting (MutationTask e
       (commands_of (mutation (default (c_data e) (canvasEventMap st !! c_uid e)))))).
Proof.
  intros Hnode. unfold processMutation, cloneCanvas, drawn_on. rewrite Hnode.
  destruct (canvases st !! data_id (c_data e)) as [t |]; cbn; [done |].
  f_equal. unfold set_canvases; cbn. f_equal. apply insert_insert_eq.
Qed.

Lemma processMutation_resume_spec e replay target st :
  canvases st !! data_id (c_data e) = Some target →
  canvases (processMutation_resume drawCall e replay st)
  = <[data_id (c_data e) :=
        {| width := width target; height := height target;
           drawn := drawn target ++ map (pair (c_uid e)) replay |}]> (canvases st).
Proof.
  intros Ht. unfold processMutation_resume, canvasMutation_resume. rewrite Ht.
  destruct (errors_window replay st) as (_ & _ & _ & _ & Hc & _).
  case_match; cbn; by rewrite Hc.
Qed.

(** Finishing an apply leaves the dimensions of the target alone. *)
Lemma processMutation_resume_dimensions e replay target st :
  canvases st !! data_id (c_data e) = Some target →
  ∃ target',
    canvases (processMutation_resume drawCall e replay st) !! data_id (c_data e)
    = Some target'
    ∧ width target' = width target ∧ height target' = height target.
Proof.
  intros Ht. rewrite (processMutation_resume_spec _ _ _ _ Ht).
  eexists. split; [apply lookup_insert_eq | done].
Qed.

(** Without a node and without a target, [processMutation] returns at once
    and leaves everything as it was. *)
Lemma processMutation_nothing_to_do e mirror st :
  mirror !! data_id (c_data e) = None →
  canvases st !! data_id (c_data e) = None →
  processMutation e mirror st = (st, Returned).
Proof. intros Hnode Ht. unfold processMutation. by rewrite Hnode, Ht. Qed.

(** * More of the plugin *)

(** ** What each function leaves alone *)

Lemma deserialize_frame d u st :
  let st' := (deserializeAndPreloadCanvasEvents d u st).1 in
  canvasMutationEvents st' = canvasMutationEvents st
  ∧ canvases st' = canvases st ∧ containers st' = containers st
  ∧ nextPreloadIndex st' = nextPreloadIndex st
  ∧ captured st' = captured st ∧ consoleErrors st' = consoleErrors st
  ∧ unhandled st' = unhandled st.
Proof.
  unfold deserializeAndPreloadCanvasEvents.
  destruct (canvasEventMap st !! u); [done |]. by repeat case_match.
Qed.

Lemma deserialize_resume_frame d u r st :
  let st' := (deserializeAndPreloadCanvasEvents_resume decode d u r st).1 in
  canvasMutationEvents st' = canvasMutationEvents st
  ∧ canvases st' = canvases st ∧ containers st' = containers st
  ∧ nextPreloadIndex st' = nextPreloadIndex st
  ∧ captured st' = captured st ∧ consoleErrors st' = consoleErrors st
  ∧ unhandled st' = unhandled st.
Proof.
  unfold deserializeAndPreloadCanvasEvents_resume.
  destruct r; [done |]. by repeat case_match.
Qed.

Lemma preload_loop_frame evs st :
  let st' := detach (preload_loop evs st) in
  canvasMutationEvents st' = canvasMutationEvents st
  ∧ canvases st' = canvases st ∧ containers st' = containers st
  ∧ nextPreloadIndex st' = nextPreloadIndex st
  ∧ captured st' = captured st ∧ consoleErrors st' = consoleErrors st
  ∧ unhandled st' = unhandled st.
Proof.
  destruct (preload_loop_spec evs st)
    as [-> | (event & rest & st' & -> & -> & _)]; [done |].
  apply (deserialize_frame (c_data event) (c_uid event)
           (set_preloadBuffer (union {[c_uid event]}) st)).
Qed.

Lemma processMutation_frame e mirror st :
  let st' := detach (processMutation e mirror st) in
  canvasMutationEvents st' = canvasMutationEvents st
  ∧ containers st' = containers st
  ∧ nextPreloadIndex st' = nextPreloadIndex st
  ∧ captured st' = captured st ∧ consoleErrors st' = consoleErrors st.
Proof.
  unfold processMutation, cloneCanvas. by repeat case_match; simplify_eq.
Qed.

Lemma errors_frame replay st :
  let st' := foldl (λ s c, match drawCall c with
                           | Some err => errorHandler err s
                           | None => s
                           end) st replay in
  canvasMutationEvents st' = canvasMutationEvents st
  ∧ nextPreloadIndex st' = nextPreloadIndex st
  ∧ unhandled st' = unhandled st.
Proof.
  revert st. induction replay as [| c replay IH]; intros st; cbn; [done |].
  destruct (IH (match drawCall c with
                | Some err => errorHandler err st
                | None => st
                end)) as (-> & -> & ->).
  by destruct (drawCall c) as [[] |].
Qed.

Lemma processMutation_resume_frame e replay st :
  let st' := processMutation_resume drawCall e replay st in
  canvasMutationEvents st' = canvasMutationEvents st
  ∧ nextPreloadIndex st' = nextPreloadIndex st
  ∧ unhandled st' = unhandled st.
Proof.
  unfold processMutation_resume, canvasMutation_resume.
  destruct (canvases st !! data_id (c_data e)); [| done].
  destruct (errors_frame replay st) as (? & ? & ?). by case_match.
Qed.

(** ** The canvas events *)

(** X1: The subsequence of canvas mutations is taken from the recording when the
    plugin is made, in recorded order, and nothing the plugin does changes
    it. *)
Theorem canvasMutationEvents_fixed events acts :
  canvasMutationEvents (run decode drawCall (CanvasReplayerPlugin events) acts)
  = omap asCanvasMutation events.
Proof.
  assert (∀ st a, canvasMutationEvents (step decode drawCall st a)
                  = canvasMutationEvents st) as Hstep.
  { intros st [currentEvent | node id | e isSync mirror | k]; unfold step.
    - unfold preload. by destruct (preload_loop_frame
        (eventsToPreload currentEvent st)
        (set_nextPreloadIndex (Some (currentIndex currentEvent st + 1)) st))
        as (-> & _).
    - unfold onBuild. by repeat case_match.
    - unfold handler. destruct isSync; [| done].
      destruct (asCanvasMutation e) as [ce |]; [| done].
      by destruct (processMutation_frame ce mirror (set_nextPreloadIndex None st))
        as (-> & _).
    - destruct (tasks st !! k) as [[event rest r | e replay] |]; cbn; [| | done].
      + unfold preload_resume.
        pose proof (deserialize_resume_frame (c_data event) (c_uid event) r
          (set_tasks (delete k) st)) as (Hev & _).
        destruct (deserializeAndPreloadCanvasEvents_resume decode (c_data event)
          (c_uid event) r (set_tasks (delete k) st)) as [st1 [error |]];
          cbn in Hev; [done |].
        by destruct (preload_loop_frame rest
          (set_preloadBuffer (λ b, b ∖ {[c_uid event]}) st1)) as (-> & _).
      + by destruct (processMutation_resume_frame e replay (set_tasks (delete k) st))
          as (-> & _). }
  assert (∀ st, canvasMutationEvents (run decode drawCall st acts)
                = canvasMutationEvents st) as Hrun.
  { unfold run. induction acts as [| a acts IH]; intros st; [done |].
    cbn [foldl]. rewrite IH. apply Hstep. }
  rewrite Hrun. unfold CanvasReplayerPlugin, preload.
  by destruct (preload_loop_frame (eventsToPreload None (fresh events))
    (set_nextPreloadIndex (Some (currentIndex None (fresh events) + 1)) (fresh events)))
    as (-> & _).
Qed.

(** What holds when a plugin is made and is kept by every step holds after
    every run. *)
Lemma run_invariant (P : State → Prop) st acts :
  P st → (∀ s a, P s → P (step decode drawCall s a)) →
  P (run decode drawCall st acts).
Proof.
  intros Hst Hstep. revert st Hst. unfold run.
  induction acts as [| a acts IH]; intros st Hst; [done |].
  cbn [foldl]. by apply IH, Hstep.
Qed.

Lemma findIndex_spec {A} (p : A → bool) (l : list A) :
  (findIndex p l = -1 ∧ ∀ x, x ∈ l → p x = false)
  ∨ ∃ k x, findIndex p l = Z.of_nat k ∧ l !! k = Some x ∧ p x = true
           ∧ ∀ j y, (j < k)%nat → l !! j = Some y → p y = false.
Proof.
  induction l as [| a l IH]; cbn.
  { left. split; [done |]. by intros x ?%elem_of_nil. }
  destruct (p a) eqn:Ha.
  { right. exists 0%nat, a. split_and!; try done. lia. }
  destruct IH as [[-> Hnone] | (k & x & -> & Hk & Hx & Hbefore)].
  - left. split; [done |]. intros x [-> | Hin]%elem_of_cons; auto.
  - right. exists (S k), x. split_and!; try done.
    + destruct (Z.ltb_spec (Z.of_nat k) 0); lia.
    + intros [| j] y Hj Hy; cbn in Hy; [by simplify_eq |].
      apply (Hbefore j y); [lia | done].
Qed.

(** X2: [findEvent] answers with the first event that draws on the canvas of
    the target, whichever event that is, and with -1 when no event draws on
    that canvas. *)
Theorem findEvent_first_for_canvas events target :
  (findEvent events target = -1
   ∧ ∀ e, e ∈ events → data_id (c_data e) ≠ data_id (c_data target))
  ∨ ∃ k e,
      findEvent events target = Z.of_nat k
      ∧ events !! k = Some e
      ∧ data_id (c_data e) = data_id (c_data target)
      ∧ ∀ j e', (j < k)%nat → events !! j = Some e' →
                data_id (c_data e') ≠ data_id (c_data target).
Proof.
  unfold findEvent.
  destruct (findIndex_spec
              (λ event, data_id (c_data event) =? data_id (c_data target)) events)
    as [[-> Hnone] | (k & e & -> & Hk & He & Hbefore)].
  - left. split; [done |]. intros e He. by apply Z.eqb_neq, Hnone.
  - right. exists k, e. split_and!; try done; [by apply Z.eqb_eq |].
    intros j e' Hj He'. by eapply Z.eqb_neq, Hbefore.
Qed.

(** ** The cursor *)

Lemma step_cursor st a :
  nextPreloadIndex (step decode drawCall st a)
  = match a with
    | CallPreload currentEvent => Some (currentIndex currentEvent st + 1)
    | CallHandler _ true _ => None
    | _ => nextPreloadIndex st
    end.
Proof.
  destruct a as [currentEvent | node id | e isSync mirror | k]; unfold step.
  - unfold preload. by destruct (preload_loop_frame
      (eventsToPreload currentEvent st)
      (set_nextPreloadIndex (Some (currentIndex currentEvent st + 1)) st))
      as (_ & _ & _ & -> & _).
  - unfold onBuild. by repeat case_match.
  - unfold handler. destruct isSync; [| done].
    destruct (asCanvasMutation e) as [ce |]; [| done].
    by destruct (processMutation_frame ce mirror (set_nextPreloadIndex None st))
      as (_ & _ & -> & _).
  - destruct (tasks st !! k) as [[event rest r | e replay] |]; cbn; [| | done].
    + unfold preload_resume.
      pose proof (deserialize_resume_frame (c_data event) (c_uid event) r
        (set_tasks (delete k) st)) as (_ & _ & _ & Hc & _).
      destruct (deserializeAndPreloadCanvasEvents_resume decode (c_data event)
        (c_uid event) r (set_tasks (delete k) st)) as [st1 [error |]];
        cbn in Hc; [done |].
      by destruct (preload_loop_frame rest
        (set_preloadBuffer (λ b, b ∖ {[c_uid event]}) st1)) as (_ & _ & _ & -> & _).
    + by destruct (processMutation_resume_frame e replay (set_tasks (delete k) st))
        as (_ & -> & _).
Qed.

Lemma findIndex_lower {A} (p : A → bool) (l : list A) : -1 ≤ findIndex p l.
Proof.
  destruct (findIndex_spec p l) as [[-> _] | (k & x & -> & _)]; lia.
Qed.

(** The cursor is null or a number from 0 on. *)
Lemma cursor_not_negative events acts n :
  nextPreloadIndex (run decode drawCall (CanvasReplayerPlugin events) acts) = Some n →
  0 ≤ n.
Proof.
  revert n. apply run_invariant.
  - unfold CanvasReplayerPlugin, preload.
    destruct (preload_loop_frame (eventsToPreload None (fresh events))
      (set_nextPreloadIndex (Some (currentIndex None (fresh events) + 1))
         (fresh events))) as (_ & _ & _ & -> & _).
    cbn. intros n [= <-]. done.
  - intros s a IH n. rewrite step_cursor.
    destruct a as [currentEvent | | ? [] ? |]; try done; [| by apply IH..].
    intros [= <-]. unfold currentIndex.
    assert (-1 ≤ match currentEvent with
                 | Some ev => findEvent (canvasMutationEvents s) ev
                 | None => 0
                 end) as Hlocated.
    { destruct currentEvent; [apply findIndex_lower | lia]. }
    destruct (nextPreloadIndex s) as [m |] eqn:Hm; [| lia].
    specialize (IH m eq_refl). destruct (Z.eqb_spec m 0); lia.
Qed.

Lemma length_slice_from {A} (l : list A) (c n : Z) :
  -1 ≤ c → 0 ≤ n → Z.of_nat (length (slice l c (c + n))) ≤ n.
Proof.
  intros Hc Hn. unfold slice. rewrite length_take, length_drop.
  destruct (Z.ltb_spec c 0), (Z.ltb_spec (c + n) 0); lia.
Qed.

(** X3: However [preload] is called on a running plugin, the slice it looks at
    is no longer than the room left in the window. *)
Theorem eventsToPreload_fits_window events acts currentEvent :
  let st := run decode drawCall (CanvasReplayerPlugin events) acts in
  Z.of_nat (length (eventsToPreload currentEvent st))
  ≤ PRELOAD_BUFFER_SIZE - Z.of_nat (size (preloadBuffer st)).
Proof.
  cbn. set (st := run decode drawCall (CanvasReplayerPlugin events) acts).
  pose proof (window_bounded st
    (window_inv_run _ acts (window_inv_plugin events))) as Hle.
  unfold eventsToPreload.
  replace (currentIndex currentEvent st + PRELOAD_BUFFER_SIZE
           - Z.of_nat (size (preloadBuffer st)))
    with (currentIndex currentEvent st
          + (PRELOAD_BUFFER_SIZE - Z.of_nat (size (preloadBuffer st)))) by lia.
  apply length_slice_from; [| lia].
  unfold currentIndex.
  assert (-1 ≤ match currentEvent with
               | Some ev => findEvent (canvasMutationEvents st) ev
               | None => 0
               end) as Hlocated.
  { destruct currentEvent; [apply findIndex_lower | lia]. }
  destruct (nextPreloadIndex st) as [m |] eqn:Hm; [| lia].
  pose proof (cursor_not_negative events acts m Hm).
  destruct (Z.eqb_spec m 0); lia.
Qed.

Lemma cursor_counts st acts n :
  nextPreloadIndex st = Some n → 1 ≤ n →
  forallb (λ a, negb (is_seek a)) acts = true →
  nextPreloadIndex (run decode drawCall st acts)
  = Some (n + Z.of_nat (preload_calls acts)).
Proof.
  unfold run, preload_calls. revert st n.
  induction acts as [| a acts IH]; intros st n Hn Hpos Hacts; cbn [foldl].
  { rewrite Hn. f_equal. cbn. lia. }
  cbn in Hacts. apply andb_prop in Hacts as [Ha Hacts].
  rewrite filter_cons.
  destruct a as [currentEvent | node id | e [] mirror | k]; try done; cbn [is_preload_call].
  - rewrite (IH _ (n + 1)); [| | lia | done].
    + case_decide; [| done]. cbn [length]. f_equal. lia.
    + rewrite step_cursor. unfold currentIndex. rewrite Hn.
      by destruct (Z.eqb_spec n 0); [lia |].
  - rewrite (IH _ n); [| | lia | done].
    + by case_decide.
    + by rewrite step_cursor.
  - rewrite (IH _ n); [| | lia | done].
    + by case_decide.
    + by rewrite step_cursor.
  - rewrite (IH _ n); [| | lia | done].
    + by case_decide.
    + by rewrite step_cursor.
Qed.

(** X4: Between seeks the cursor counts the calls of [preload]: each call moves
    it on by one, whatever event the call is given. *)
Theorem cursor_counts_preload_calls events acts :
  forallb (λ a, negb (is_seek a)) acts = true →
  nextPreloadIndex (run decode drawCall (CanvasReplayerPlugin events) acts)
  = Some (1 + Z.of_nat (preload_calls acts)).
Proof.
  intros Hacts. apply cursor_counts; [| lia | done].
  unfold CanvasReplayerPlugin, preload.
  by destruct (preload_loop_frame (eventsToPreload None (fresh events))
    (set_nextPreloadIndex (Some (currentIndex None (fresh events) + 1))
       (fresh events))) as (_ & _ & _ & -> & _).
Qed.

(** ** The loop of [preload] *)

(** X5: A call of [preload] parks at the first event of its slice that is
    neither in the window nor cached, and puts that event in the window; it
    passes over the events before it.  When every event of the slice is in
    the window or cached, the call ends and has changed nothing. *)
Theorem preload_loop_parks_at_first_new_event evs st :
  (preload_loop evs st = (st, Returned) ∧ Forall (passed_over st) evs)
  ∨ ∃ skipped event rest st' r,
      preload_loop evs st = (st', Awaiting (PreloadTask event rest r))
      ∧ evs = skipped ++ event :: rest
      ∧ Forall (passed_over st) skipped
      ∧ ¬ passed_over st event
      ∧ preloadBuffer st' = {[c_uid event]} ∪ preloadBuffer st
      ∧ canvasEventMap st' = canvasEventMap st.
Proof.
  induction evs as [| event rest IH]; cbn; [by left |].
  destruct (bool_decide (c_uid event ∉ preloadBuffer st)) eqn:Hb; cbn.
  2: { apply bool_decide_eq_false in Hb.
       assert (passed_over st event) as Hpassed.
       { left. by destruct (decide (c_uid event ∈ preloadBuffer st)). }
       destruct IH as [[-> Hall] | (sk & ev & rs & st' & r & -> & -> & ? & ? & ? & ?)].
       - left. split; [done |]. by constructor.
       - right. exists (event :: sk), ev, rs, st', r. split_and!; try done.
         by constructor. }
  destruct (bool_decide (canvasEventMap st !! c_uid event = None)) eqn:Hm; cbn.
  2: { apply bool_decide_eq_false in Hm.
       assert (passed_over st event) as Hpassed.
       { right. by destruct (canvasEventMap st !! c_uid event). }
       destruct IH as [[-> Hall] | (sk & ev & rs & st' & r & -> & -> & ? & ? & ? & ?)].
       - left. split; [done |]. by constructor.
       - right. exists (event :: sk), ev, rs, st', r. split_and!; try done.
         by constructor. }
  apply bool_decide_eq_true in Hb, Hm. right.
  pose proof (deserialize_window (c_data event) (c_uid event)
    (set_preloadBuffer (union {[c_uid event]}) st)) as (Hbuf & Hmap & _).
  destruct (deserializeAndPreloadCanvasEvents (c_data event) (c_uid event)
    (set_preloadBuffer (union {[c_uid event]}) st)) as [st' r].
  exists [], event, rest, st', r. split_and!; try done.
  intros [Hin | Hsome]; [done |]. rewrite Hm in Hsome. by destruct Hsome.
Qed.

(** ** How far the plugin preloads by itself *)

Lemma slice_from_start {A} (l : list A) (n : Z) :
  0 ≤ n → slice l 0 n = take (Z.to_nat n) l.
Proof.
  intros Hn. unfold slice. cbn [Z.ltb Z.compare].
  destruct (Z.ltb_spec n 0); [lia |].
  replace (Z.to_nat (Z.min 0 (Z.of_nat (length l)))) with 0%nat by lia.
  rewrite drop_0.
  destruct (decide (n ≤ Z.of_nat (length l))).
  - f_equal. lia.
  - rewrite !take_ge by lia. done.
Qed.

(** The events a plugin can be busy with when [preload] is not called again:
    the first 30 canvas mutations. *)
Lemma first_slice_only events acts :
  forallb (λ a, negb (is_preload_call a)) acts = true →
  let first := take (Z.to_nat PRELOAD_BUFFER_SIZE) (omap asCanvasMutation events) in
  let st := run decode drawCall (CanvasReplayerPlugin events) acts in
  (∀ event rest r, PreloadTask event rest r ∈ tasks st →
                   event ∈ first ∧ rest ⊆ first)
  ∧ (∀ en, en ∈ decodeLog st → en.1 ∈ c_uid <$> first)
  ∧ (∀ u, u ∈ preloadBuffer st → u ∈ c_uid <$> first).
Proof.
  intros Hacts. cbn zeta. set (first := take (Z.to_nat PRELOAD_BUFFER_SIZE) (omap asCanvasMutation events)).
  set (J := λ st : State,
    (∀ event rest r, PreloadTask event rest r ∈ tasks st →
                     event ∈ first ∧ rest ⊆ first)
    ∧ (∀ en, en ∈ decodeLog st → en.1 ∈ c_uid <$> first)
    ∧ (∀ u, u ∈ preloadBuffer st → u ∈ c_uid <$> first)).
  assert (∀ evs st, evs ⊆ first → J st → J (detach (preload_loop evs st))) as Hloop.
  { intros evs st Hevs (Ht & Hl & Hb).
    destruct (preload_loop_spec evs st)
      as [-> | (event & rest & st' & -> & -> & _ & Hnone & sk & ->)]; [done |].
    destruct (deserialize_spec (c_data event) (c_uid event)
      (set_preloadBuffer (union {[c_uid event]}) st) Hnone) as (s & p & -> & _).
    assert (event ∈ first) as Hev by (apply Hevs; set_solver).
    cbn. split_and!.
    - intros ev rs r [Heq | Hin]%elem_of_cons; [| by eapply Ht].
      simplify_eq. split; [done |]. intros x Hx. apply Hevs. set_solver.
    - intros en [Hin | ->%list_elem_of_singleton]%elem_of_app; [by apply Hl |].
      cbn. by apply list_elem_of_fmap_2.
    - intros u [->%elem_of_singleton | Hin]%elem_of_union; [| by apply Hb].
      by apply list_elem_of_fmap_2. }
  change (J (run decode drawCall (CanvasReplayerPlugin events) acts)).
  assert (J (CanvasReplayerPlugin events)) as Hstart.
  { unfold CanvasReplayerPlugin, preload. apply Hloop.
    - unfold eventsToPreload, currentIndex; cbn.
      rewrite size_empty. by rewrite slice_from_start.
    - split_and!; cbn; [by intros ??? ?%elem_of_nil | by intros ? ?%elem_of_nil
                       | by intros ? ?%elem_of_empty]. }
  revert Hstart Hacts. generalize (CanvasReplayerPlugin events). unfold run.
  induction acts as [| a acts IH]; intros st Hst Hacts; [done |].
  cbn in Hacts. apply andb_prop in Hacts as [Ha Hacts]. cbn [foldl].
  apply IH; [| done]. destruct Hst as (Ht & Hl & Hb).
  destruct a as [currentEvent | node id | e isSync mirror | k]; [done | | |];
    unfold step.
  - destruct (onBuild_window node id st) as (Hbuf & _ & Hlog & Htasks).
    unfold J. by rewrite Hbuf, Hlog, Htasks.
  - destruct (handler_window e isSync mirror st) as (Hbuf & _ & Hlog & Htasks).
    unfold J. rewrite Hbuf, Hlog. split_and!; try done.
    destruct Htasks as [-> | (ce & replay & ->)]; [done |].
    intros ev rs r [? | ?]%elem_of_cons; [done | by eapply Ht].
  - destruct (tasks st !! k) as [t |] eqn:Hk; [| done].
    destruct t as [event rest r | e replay]; cbn.
    + unfold preload_resume.
      pose proof (deserialize_resume_window (c_data event) (c_uid event) r
        (set_tasks (delete k) st)) as (Hbuf & Htasks & Hlog & _).
      destruct (deserializeAndPreloadCanvasEvents_resume decode (c_data event)
        (c_uid event) r (set_tasks (delete k) st)) as [st1 [error |]];
        cbn in Hbuf, Htasks, Hlog.
      * unfold J; cbn. rewrite Hbuf, Htasks, Hlog. split_and!; try done.
        intros ev rs r' Hin. eapply Ht. by eapply list_elem_of_delete_inv.
      * apply Hloop.
        -- eapply Ht. by eapply list_elem_of_lookup_2.
        -- unfold J; cbn. rewrite Hbuf, Htasks, Hlog. split_and!; try done.
           ++ intros ev rs r' Hin. eapply Ht. by eapply list_elem_of_delete_inv.
           ++ intros u [Hu _]%elem_of_difference. by apply Hb.
    + destruct (processMutation_resume_window e replay (set_tasks (delete k) st))
        as (Hbuf & _ & Hlog & Htasks). cbn in Hbuf, Hlog, Htasks.
      unfold J. rewrite Hbuf, Hlog, Htasks. split_and!; try done.
      intros ev rs r' Hin. eapply Ht. by eapply list_elem_of_delete_inv.
Qed.

(** X6: The plugin calls [preload] once, when it is made.  Unless [preload] is
    called again, no event after the first 30 canvas mutations is ever
    resolved or put in the window, however long playback goes on. *)
Theorem plugin_preloads_first_slice_only events acts u ps :
  forallb (λ a, negb (is_preload_call a)) acts = true →
  (u, ps) ∈ decodeLog (run decode drawCall (CanvasReplayerPlugin events) acts)
  ∨ u ∈ preloadBuffer (run decode drawCall (CanvasReplayerPlugin events) acts) →
  u ∈ c_uid <$> take (Z.to_nat PRELOAD_BUFFER_SIZE) (omap asCanvasMutation events).
Proof.
  intros Hacts. destruct (first_slice_only events acts Hacts) as (_ & Hl & Hb).
  intros [Hin | Hin]; [apply (Hl _ Hin) | by apply Hb].
Qed.

(** ** The window and the calls in flight *)

Lemma step_unhandled st a :
  unhandled (step decode drawCall st a) = [] → unhandled st = [].
Proof.
  destruct a as [currentEvent | node id | e isSync mirror | k]; unfold step.
  - unfold preload. by destruct (preload_loop_frame
      (eventsToPreload currentEvent st)
      (set_nextPreloadIndex (Some (currentIndex currentEvent st + 1)) st))
      as (_ & _ & _ & _ & _ & _ & ->).
  - unfold onBuild. by repeat case_match.
  - unfold handler. destruct isSync; [| done].
    destruct (asCanvasMutation e) as [ce |]; [| done].
    unfold processMutation, cloneCanvas.
    repeat case_match; simplify_eq; cbn; try done.
    by intros [? _]%app_eq_nil.
  - destruct (tasks st !! k) as [[event rest r | e replay] |]; cbn; [| | done].
    + unfold preload_resume.
      pose proof (deserialize_resume_frame (c_data event) (c_uid event) r
        (set_tasks (delete k) st)) as (_ & _ & _ & _ & _ & _ & Hu).
      destruct (deserializeAndPreloadCanvasEvents_resume decode (c_data event)
        (c_uid event) r (set_tasks (delete k) st)) as [st1 [error |]]; cbn in Hu.
      * cbn. intros [? _]%app_eq_nil. congruence.
      * destruct (preload_loop_frame rest
          (set_preloadBuffer (λ b, b ∖ {[c_uid event]}) st1))
          as (_ & _ & _ & _ & _ & _ & ->). cbn. congruence.
    + by destruct (processMutation_resume_frame e replay (set_tasks (delete k) st))
        as (_ & _ & ->).
Qed.

Lemma in_flight_loop evs st :
  (∀ u, u ∈ preloadBuffer st ↔ u ∈ holders st) →
  ∀ u, u ∈ preloadBuffer (detach (preload_loop evs st))
       ↔ u ∈ holders (detach (preload_loop evs st)).
Proof.
  intros Heq.
  destruct (preload_loop_spec evs st)
    as [-> | (event & rest & st' & -> & -> & _)]; [done |].
  destruct (deserialize_window (c_data event) (c_uid event)
    (set_preloadBuffer (union {[c_uid event]}) st)) as (Hbuf & _ & Htasks).
  intros u. unfold holders in *. cbn in *. rewrite Hbuf, Htasks.
  rewrite elem_of_union, elem_of_singleton, elem_of_cons. by rewrite Heq.
Qed.

Lemma in_flight_step st a :
  window_inv st →
  (∀ u, u ∈ preloadBuffer st ↔ u ∈ holders st) →
  unhandled (step decode drawCall st a) = [] →
  ∀ u, u ∈ preloadBuffer (step decode drawCall st a)
       ↔ u ∈ holders (step decode drawCall st a).
Proof.
  intros Hinv Heq.
  destruct a as [currentEvent | node id | e isSync mirror | k]; unfold step.
  - intros _. unfold preload. by apply in_flight_loop.
  - intros _ u. destruct (onBuild_window node id st) as (Hbuf & _ & _ & Htasks).
    unfold holders. by rewrite Hbuf, Htasks.
  - intros _ u.
    destruct (handler_window e isSync mirror st) as (Hbuf & _ & _ & Htasks).
    unfold holders in *. rewrite Hbuf.
    by destruct Htasks as [-> | (ce & replay & ->)].
  - destruct (tasks st !! k) as [t |] eqn:Hk; [| by intros _].
    destruct t as [event rest r | e replay]; cbn.
    + unfold preload_resume.
      destruct (holders_settled st k event rest r Hinv Hk) as (_ & Hout & _ & _).
      destruct (holders_delete st k _ Hk) as (h1 & h2 & Hh & Hh'). cbn in Hh.
      pose proof (deserialize_resume_window (c_data event) (c_uid event) r
        (set_tasks (delete k) st)) as (Hbuf & Htasks & _).
      destruct (deserializeAndPreloadCanvasEvents_resume decode (c_data event)
        (c_uid event) r (set_tasks (delete k) st)) as [st1 [error |]];
        cbn in Hbuf, Htasks.
      * cbn. by intros [? ?]%app_eq_nil.
      * intros _. apply in_flight_loop. intros u. unfold holders in *; cbn in *.
        rewrite Hbuf, Htasks, Hh'. rewrite Hh' in Hout.
        rewrite elem_of_difference, elem_of_singleton, Heq, Hh.
        rewrite !elem_of_app, elem_of_cons. rewrite elem_of_app in Hout.
        naive_solver.
    + intros _ u.
      destruct (holders_delete st k _ Hk) as (h1 & h2 & Hh & Hh'). cbn in Hh, Hh'.
      destruct (processMutation_resume_window e replay (set_tasks (delete k) st))
        as (Hbuf & _ & _ & Htasks). cbn in Hbuf, Htasks.
      unfold holders in *. by rewrite Hbuf, Htasks, Hh', <- Hh.
Qed.

(** X7: As long as no call of the plugin has been rejected, the window holds
    exactly the events that parked [preload] calls are waiting on; when no
    call is parked, it is empty. *)
Theorem window_is_the_calls_in_flight events acts :
  let st := run decode drawCall (CanvasReplayerPlugin events) acts in
  unhandled st = [] →
  (∀ u, u ∈ preloadBuffer st ↔ u ∈ holders st)
  ∧ (tasks st = [] → preloadBuffer st = ∅).
Proof.
  cbn zeta. intros Hnone.
  assert (∀ u, u ∈ preloadBuffer (run decode drawCall (CanvasReplayerPlugin events) acts)
               ↔ u ∈ holders (run decode drawCall (CanvasReplayerPlugin events) acts))
    as Heq.
  { revert Hnone. pose proof (window_inv_plugin events) as Hinv.
    assert (unhandled (CanvasReplayerPlugin events) = [] →
            ∀ u, u ∈ preloadBuffer (CanvasReplayerPlugin events)
                 ↔ u ∈ holders (CanvasReplayerPlugin events)) as Hstart.
    { intros _. unfold CanvasReplayerPlugin, preload. apply in_flight_loop.
      intros u. unfold holders. cbn. set_solver. }
    revert Hinv Hstart. generalize (CanvasReplayerPlugin events). unfold run.
    induction acts as [| a acts IH]; intros st Hinv Hst Hnone; [by apply Hst |].
    cbn [foldl] in *. apply IH; [by apply window_inv_step | | done].
    intros Hu. apply in_flight_step; [done | | done].
    by apply Hst, (step_unhandled st a). }
  split; [done |]. intros Hempty. apply set_eq. intros u.
  rewrite Heq. unfold holders. rewrite Hempty. set_solver.
Qed.

(** ** Entries of the cache *)

Lemma cached_entry_step st a u m :
  window_inv st →
  canvasEventMap st !! u = Some m →
  canvasEventMap (step decode drawCall st a) !! u = Some m.
Proof.
  intros Hinv Hu.
  destruct a as [currentEvent | node id | e isSync mirror | k]; unfold step.
  - unfold preload. by rewrite preload_loop_map.
  - by destruct (onBuild_window node id st) as (_ & -> & _).
  - by destruct (handler_window e isSync mirror st) as (_ & -> & _).
  - destruct (tasks st !! k) as [[event rest r | e replay] |] eqn:Hk; cbn; [| | done].
    + unfold preload_resume.
      destruct (holders_settled st k event rest r Hinv Hk) as (_ & _ & Hin & _).
      assert (u ≠ c_uid event) as Hne.
      { intros ->. by eapply (cached_out_of_window st Hinv). }
      pose proof (deserialize_resume_window (c_data event) (c_uid event) r
        (set_tasks (delete k) st)) as (_ & _ & _ & Hmap).
      destruct (deserializeAndPreloadCanvasEvents_resume decode (c_data event)
        (c_uid event) r (set_tasks (delete k) st)) as [st1 [error |]];
        cbn in Hmap; [cbn | rewrite preload_loop_map; cbn].
      all: destruct Hmap as [-> | [_ [m' ->]]]; [done |];
        by rewrite lookup_insert_ne.
    + by destruct (processMutation_resume_window e replay (set_tasks (delete k) st))
        as (_ & -> & _).
Qed.

(** X8: A resolved mutation is stored once: whatever happens after it is
    cached, the entry of its event stays what it is. *)
Theorem cached_entry_is_final events acts later u m :
  canvasEventMap (run decode drawCall (CanvasReplayerPlugin events) acts) !! u = Some m →
  canvasEventMap (run decode drawCall (CanvasReplayerPlugin events) (acts ++ later)) !! u
  = Some m.
Proof.
  intros Hu. unfold run. rewrite foldl_app.
  pose proof (window_inv_run _ acts (window_inv_plugin events)) as Hinv.
  revert Hu Hinv. fold (run decode drawCall (CanvasReplayerPlugin events) acts).
  generalize (run decode drawCall (CanvasReplayerPlugin events) acts).
  induction later as [| a later IH]; intros st Hu Hinv; [done |].
  cbn [foldl]. apply IH; [by apply cached_entry_step | by apply window_inv_step].
Qed.

(** ** The shape of a resolved mutation *)

Lemma walk_args_length m s l : length (walk_args m s l).2 = length l.
Proof.
  revert s. induction l as [| a l IH]; intros s; cbn; [done |].
  destruct (deserializeCanvasArg m s a) as [s1 p].
  specialize (IH s1). destruct (walk_args m s1 l) as [s2 ps]. cbn in *. by rewrite IH.
Qed.

Lemma settle_command_outline cp c :
  settle_command decode cp = Some c →
  method c = method (p_command cp) ∧ length (args c) = length (p_args cp).
Proof.
  unfold settle_command.
  destruct (mapM (settle_arg decode) (p_args cp)) as [args' |] eqn:Hargs; [| done].
  intros [= <-]. cbn. split; [done |]. symmetry. by eapply length_mapM.
Qed.

Lemma walk_commands_settle_outline m s cs s' cps cs' :
  walk_commands m s cs = (s', cps) →
  mapM (settle_command decode) cps = Some cs' →
  map (λ c, (method c, length (args c))) cs'
  = map (λ c, (method c, length (args c))) cs.
Proof.
  revert s s' cps cs'. induction cs as [| c cs IH]; intros s s' cps cs'; cbn.
  { intros [= <- <-]. cbn. by intros [= <-]. }
  pose proof (walk_args_length m s (args c)) as Hlen.
  destruct (walk_args m s (args c)) as [s1 ps] eqn:Ha.
  destruct (walk_commands m s1 cs) as [s2 cps2] eqn:Hc. intros [= <- <-] Hsettle.
  destruct cs' as [| c' cs'].
  { apply length_mapM in Hsettle. done. }
  apply mapM_cons_Some in Hsettle as [Hc' Hcs'].
  apply settle_command_outline in Hc' as [Hm Hl]. cbn in *.
  by rewrite Hm, Hl, Hlen, (IH _ _ _ _ Hc Hcs').
Qed.

(** X9: What a resolution stores for an event is the recorded mutation in
    outline: the same canvas id, batched or single as recorded, the same
    methods in the same order with as many arguments each. *)
Theorem resolved_mutation_keeps_outline d u st st' m :
  let begun := deserializeAndPreloadCanvasEvents d u st in
  let ended := deserializeAndPreloadCanvasEvents_resume decode d u begun.2 st' in
  canvasEventMap ended.1 !! u = Some m →
  canvasEventMap st' !! u = Some m
  ∨ data_id m = data_id d ∧ outline (mutation m) = outline (mutation d).
Proof.
  cbn zeta. unfold deserializeAndPreloadCanvasEvents, outline.
  destruct (canvasEventMap st !! u); cbn; [by left |].
  destruct (mutation d) as [cs | c] eqn:Hd; cbn.
  - destruct (walk_commands (imageMap st) true cs) as [s cps] eqn:Hw; cbn.
    destruct (mapM (settle_command decode) cps) as [cs' |] eqn:Hcs; cbn; [| by left].
    destruct s; cbn; [by left |]. rewrite lookup_insert_eq. intros [= <-]. right.
    cbn. split; [done |]. f_equal. by eapply walk_commands_settle_outline.
  - pose proof (walk_args_length (imageMap st) true (args c)) as Hlen.
    destruct (walk_args (imageMap st) true (args c)) as [s ps] eqn:Hw; cbn in *.
    unfold settle_command; cbn.
    destruct (mapM (settle_arg decode) ps) as [args' |] eqn:Hargs; cbn; [| by left].
    destruct s; cbn; [by left |]. rewrite lookup_insert_eq. intros [= <-]. right.
    apply length_mapM in Hargs. cbn. split; [done |]. by rewrite <- Hargs, Hlen.
Qed.

(** ** Placeholders *)

(** X10: [onBuild] for an id that already has its placeholder changes nothing:
    the placeholder stays, with the picture it shows. *)
Theorem onBuild_keeps_placeholder node id st :
  is_Some (containers st !! id) → onBuild node id st = st.
Proof.
  intros [img Himg]. unfold onBuild. destruct node as [n |]; [| done].
  case_match; [| done]. rewrite Himg. cbn. unfold set_containers.
  rewrite insert_id by done. by destruct st.
Qed.

Lemma processMutation_resume_containers e replay st :
  containers (processMutation_resume drawCall e replay st)
  = match canvases st !! data_id (c_data e), containers st !! data_id (c_data e) with
    | Some _, Some _ =>
        <[data_id (c_data e) :=
            {| src := canvases (processMutation_resume drawCall e replay st)
                        !! data_id (c_data e) |}]> (containers st)
    | _, _ => containers st
    end.
Proof.
  destruct (canvases st !! data_id (c_data e)) as [target |] eqn:Ht.
  2: { unfold processMutation_resume. by rewrite Ht. }
  rewrite (processMutation_resume_spec _ _ _ _ Ht), lookup_insert_eq.
  unfold processMutation_resume, canvasMutation_resume. rewrite Ht.
  destruct (errors_window replay st) as (_ & _ & _ & _ & _ & Hk).
  cbn. rewrite Hk. destruct (containers st !! data_id (c_data e)); cbn; by rewrite Hk.
Qed.

(** X11: When an apply ends, the placeholder of its canvas, if it has one,
    shows the target as the apply leaves it; nothing else among the
    placeholders changes, and none is made. *)
Theorem placeholder_shows_target e replay st :
  let id := data_id (c_data e) in
  let st' := processMutation_resume drawCall e replay st in
  containers st'
  = match canvases st !! id, containers st !! id with
    | Some _, Some _ => <[id := {| src := canvases st' !! id |}]> (containers st)
    | _, _ => containers st
    end.
Proof. apply processMutation_resume_containers. Qed.

Lemma step_placeholders st a id :
  is_Some (containers (step decode drawCall st a) !! id)
  ↔ is_Some (containers st !! id) ∨ binds id a = true.
Proof.
  destruct a as [currentEvent | node id' | e isSync mirror | k]; unfold step, binds.
  - unfold preload. destruct (preload_loop_frame
      (eventsToPreload currentEvent st)
      (set_nextPreloadIndex (Some (currentIndex currentEvent st + 1)) st))
      as (_ & _ & -> & _). cbn. naive_solver.
  - unfold onBuild, is_canvas_node. destruct node as [n |]; [| naive_solver].
    destruct (bool_decide (nodeName n = "CANVAS") && (nodeType n =? 1)); cbn;
      [| naive_solver].
    destruct (Z.eqb_spec id' id) as [-> | Hne].
    + rewrite lookup_insert_eq. naive_solver.
    + rewrite lookup_insert_ne by done. naive_solver.
  - unfold handler. destruct isSync; [| naive_solver].
    destruct (asCanvasMutation e) as [ce |]; [| cbn; naive_solver].
    destruct (processMutation_frame ce mirror (set_nextPreloadIndex None st))
      as (_ & -> & _). cbn. naive_solver.
  - destruct (tasks st !! k) as [[event rest r | e replay] |]; cbn; [| | naive_solver].
    + unfold preload_resume.
      pose proof (deserialize_resume_frame (c_data event) (c_uid event) r
        (set_tasks (delete k) st)) as (_ & _ & Hc & _).
      destruct (deserializeAndPreloadCanvasEvents_resume decode (c_data event)
        (c_uid event) r (set_tasks (delete k) st)) as [st1 [error |]]; cbn in Hc.
      * cbn. rewrite Hc. naive_solver.
      * destruct (preload_loop_frame rest
          (set_preloadBuffer (λ b, b ∖ {[c_uid event]}) st1)) as (_ & _ & -> & _).
        cbn. rewrite Hc. naive_solver.
    + rewrite processMutation_resume_containers. cbn.
      destruct (canvases st !! data_id (c_data e)); [| naive_solver].
      destruct (containers st !! data_id (c_data e)) eqn:Hc; [| naive_solver].
      destruct (decide (data_id (c_data e) = id)) as [<- | Hne].
      * rewrite lookup_insert_eq, Hc. naive_solver.
      * rewrite lookup_insert_ne by done. naive_solver.
Qed.

(** X12: A canvas has a placeholder exactly when [onBuild] has been called for
    a canvas element of its id: only [onBuild] makes placeholders, and none
    is ever taken away. *)
Theorem placeholders_come_from_onBuild events acts id :
  is_Some (containers (run decode drawCall (CanvasReplayerPlugin events) acts) !! id)
  ↔ existsb (binds id) acts = true.
Proof.
  assert (containers (CanvasReplayerPlugin events) !! id = None) as Hstart.
  { unfold CanvasReplayerPlugin, preload. by destruct (preload_loop_frame
      (eventsToPreload None (fresh events))
      (set_nextPreloadIndex (Some (currentIndex None (fresh events) + 1))
         (fresh events))) as (_ & _ & -> & _). }
  assert (∀ st, is_Some (containers (run decode drawCall st acts) !! id)
                ↔ is_Some (containers st !! id) ∨ existsb (binds id) acts = true)
    as Hrun.
  { unfold run. induction acts as [| a acts IH]; intros st; cbn [foldl existsb].
    { naive_solver. }
    rewrite IH, step_placeholders, orb_true_iff. naive_solver. }
  rewrite Hrun, Hstart. split; [| by right].
  intros [Hsome | ?]; [by destruct Hsome | done].
Qed.

(** ** Targets *)

Lemma processMutation_without_node e mirror st :
  mirror !! data_id (c_data e) = None →
  canvases (detach (processMutation e mirror st)) = canvases st
  ∧ tasks (detach (processMutation e mirror st)) = tasks st.
Proof.
  intros Hnode. unfold processMutation. rewrite Hnode.
  by destruct (canvases st !! data_id (c_data e)).
Qed.

Lemma step_targets st a id :
  is_Some (canvases (step decode drawCall st a) !! id)
  ↔ is_Some (canvases st !! id) ∨ reaches id a = true.
Proof.
  destruct a as [currentEvent | node id' | e isSync mirror | k]; unfold step, reaches.
  - unfold preload. destruct (preload_loop_frame
      (eventsToPreload currentEvent st)
      (set_nextPreloadIndex (Some (currentIndex currentEvent st + 1)) st))
      as (_ & -> & _). cbn. naive_solver.
  - unfold onBuild. repeat case_match; cbn; naive_solver.
  - unfold handler. destruct isSync; [| naive_solver].
    destruct (asCanvasMutation e) as [ce |]; [| cbn; naive_solver].
    destruct (mirror !! data_id (c_data ce)) as [node |] eqn:Hnode.
    + rewrite (processMutation_live _ _ _ _ Hnode). cbn.
      destruct (Z.eqb_spec (data_id (c_data ce)) id) as [<- | Hne]; cbn.
      * rewrite lookup_insert_eq, Hnode.
        rewrite bool_decide_eq_true_2 by done. naive_solver.
      * rewrite lookup_insert_ne by done. naive_solver.
    + destruct (processMutation_without_node ce mirror
        (set_nextPreloadIndex None st) Hnode) as [-> _]. cbn.
      destruct (Z.eqb_spec (data_id (c_data ce)) id) as [<- | Hne]; cbn;
        [| naive_solver].
      rewrite Hnode. rewrite bool_decide_eq_false_2; [naive_solver |].
      by intros [? ?].
  - destruct (tasks st !! k) as [[event rest r | e replay] |]; cbn; [| | naive_solver].
    + unfold preload_resume.
      pose proof (deserialize_resume_frame (c_data event) (c_uid event) r
        (set_tasks (delete k) st)) as (_ & Hc & _).
      destruct (deserializeAndPreloadCanvasEvents_resume decode (c_data event)
        (c_uid event) r (set_tasks (delete k) st)) as [st1 [error |]]; cbn in Hc.
      * cbn. rewrite Hc. naive_solver.
      * destruct (preload_loop_frame rest
          (set_preloadBuffer (λ b, b ∖ {[c_uid event]}) st1)) as (_ & -> & _).
        cbn. rewrite Hc. naive_solver.
    + destruct (canvases st !! data_id (c_data e)) as [target |] eqn:Ht.
      * rewrite (processMutation_resume_spec e replay target
          (set_tasks (delete k) st) Ht). cbn.
        destruct (decide (data_id (c_data e) = id)) as [<- | Hne].
        -- rewrite lookup_insert_eq, Ht. naive_solver.
        -- rewrite lookup_insert_ne by done. naive_solver.
      * unfold processMutation_resume. cbn. rewrite Ht. naive_solver.
Qed.

(** X13: A canvas has a target exactly when a mutation for its id has been
    delivered with [isSync = true] while the mirror had the node: nothing
    else makes a target, and a target is never dropped. *)
Theorem targets_come_from_live_applies events acts id :
  is_Some (canvases (run decode drawCall (CanvasReplayerPlugin events) acts) !! id)
  ↔ existsb (reaches id) acts = true.
Proof.
  assert (canvases (CanvasReplayerPlugin events) !! id = None) as Hstart.
  { unfold CanvasReplayerPlugin, preload. by destruct (preload_loop_frame
      (eventsToPreload None (fresh events))
      (set_nextPreloadIndex (Some (currentIndex None (fresh events) + 1))
         (fresh events))) as (_ & -> & _). }
  assert (∀ st, is_Some (canvases (run decode drawCall st acts) !! id)
                ↔ is_Some (canvases st !! id) ∨ existsb (reaches id) acts = true)
    as Hrun.
  { unfold run. induction acts as [| a acts IH]; intros st; cbn [foldl existsb].
    { naive_solver. }
    rewrite IH, step_targets, orb_true_iff. naive_solver. }
  rewrite Hrun, Hstart. split; [| by right].
  intros [Hsome | ?]; [by destruct Hsome | done].
Qed.

(** ** What preloading reports *)

Lemma preload_loop_tasks evs st :
  tasks (detach (preload_loop evs st)) = tasks st
  ∨ ∃ event rest r,
      tasks (detach (preload_loop evs st)) = PreloadTask event rest r :: tasks st.
Proof.
  destruct (preload_loop_spec evs st)
    as [-> | (event & rest & st' & -> & -> & _)]; [by left |].
  right. cbn. destruct (deserialize_window (c_data event) (c_uid event)
    (set_preloadBuffer (union {[c_uid event]}) st)) as (_ & _ & ->). by eexists _, _, _.
Qed.

(** X14: Without a delivery with [isSync = true] the plugin only preloads: it
    reports nothing to [captureException] or [console.error], whatever the
    decoder does, and no apply is ever parked. *)
Theorem preloading_reports_nothing events acts :
  forallb (λ a, negb (is_seek a)) acts = true →
  let st := run decode drawCall (CanvasReplayerPlugin events) acts in
  captured st = [] ∧ consoleErrors st = []
  ∧ ∀ e replay, MutationTask e replay ∉ tasks st.
Proof.
  intros Hacts. cbn zeta.
  set (Q := λ st : State,
    captured st = [] ∧ consoleErrors st = []
    ∧ ∀ e replay, MutationTask e replay ∉ tasks st).
  assert (∀ evs st, Q st → Q (detach (preload_loop evs st))) as Hloop.
  { intros evs st (Hc & Hk & Ht).
    destruct (preload_loop_frame evs st) as (_ & _ & _ & _ & Hc' & Hk' & _).
    unfold Q. rewrite Hc', Hk'. split_and!; try done.
    destruct (preload_loop_tasks evs st) as [-> | (event & rest & r & ->)]; [done |].
    intros e replay [? | ?]%elem_of_cons; [done | by eapply Ht]. }
  change (Q (run decode drawCall (CanvasReplayerPlugin events) acts)).
  assert (Q (CanvasReplayerPlugin events)) as Hstart.
  { apply Hloop. split_and!; try done. by intros ?? ?%elem_of_nil. }
  revert Hstart Hacts. generalize (CanvasReplayerPlugin events). unfold run.
  induction acts as [| a acts IH]; intros st Hst Hacts; [done |].
  cbn in Hacts. apply andb_prop in Hacts as [Ha Hacts]. cbn [foldl].
  apply IH; [| done]. pose proof Hst as (Hc & Hk & Ht).
  destruct a as [currentEvent | node id | e [] mirror | k]; try done; unfold step.
  - by apply Hloop.
  - unfold onBuild, Q. by repeat case_match.
  - destruct (tasks st !! k) as [t |] eqn:Hk'; [| done].
    destruct t as [event rest r | e replay]; cbn.
    + unfold preload_resume.
      pose proof (deserialize_resume_frame (c_data event) (c_uid event) r
        (set_tasks (delete k) st)) as (_ & _ & _ & _ & Hc' & Hk'' & _).
      pose proof (deserialize_resume_window (c_data event) (c_uid event) r
        (set_tasks (delete k) st)) as (_ & Htasks & _).
      destruct (deserializeAndPreloadCanvasEvents_resume decode (c_data event)
        (c_uid event) r (set_tasks (delete k) st)) as [st1 [error |]];
        cbn in Hc', Hk'', Htasks.
      * unfold Q; cbn. rewrite Hc', Hk'', Htasks. split_and!; try done.
        intros e replay Hin. eapply Ht. by eapply list_elem_of_delete_inv.
      * apply Hloop. unfold Q; cbn. rewrite Hc', Hk'', Htasks. split_and!; try done.
        intros e replay Hin. eapply Ht. by eapply list_elem_of_delete_inv.
    + exfalso. eapply Ht. by eapply list_elem_of_lookup_2.
Qed.

(** ** Events that stay in the window *)

Lemma stranded_step st a u :
  window_inv st →
  u ∈ preloadBuffer st → u ∉ holders st →
  u ∈ preloadBuffer (step decode drawCall st a)
  ∧ u ∉ holders (step decode drawCall st a).
Proof.
  intros Hinv Hin Hout.
  assert (∀ evs s, u ∈ preloadBuffer s → u ∉ holders s →
            u ∈ preloadBuffer (detach (preload_loop evs s))
            ∧ u ∉ holders (detach (preload_loop evs s))) as Hloop.
  { intros evs s Hs Hs'.
    destruct (preload_loop_spec evs s)
      as [-> | (event & rest & st' & -> & -> & Hfresh & _)]; [done |].
    destruct (deserialize_window (c_data event) (c_uid event)
      (set_preloadBuffer (union {[c_uid event]}) s)) as (Hbuf & _ & Htasks).
    unfold holders in *. cbn in *. rewrite Hbuf, Htasks. split; [set_solver |].
    intros [-> | ?]%elem_of_cons; done. }
  destruct a as [currentEvent | node id | e isSync mirror | k]; unfold step.
  - unfold preload. by apply Hloop.
  - destruct (onBuild_window node id st) as (Hbuf & _ & _ & Htasks).
    unfold holders in *. by rewrite Hbuf, Htasks.
  - destruct (handler_window e isSync mirror st) as (Hbuf & _ & _ & Htasks).
    unfold holders in *. rewrite Hbuf.
    by destruct Htasks as [-> | (ce & replay & ->)].
  - destruct (tasks st !! k) as [t |] eqn:Hk; [| done].
    destruct (holders_delete st k _ Hk) as (h1 & h2 & Hh & Hh').
    destruct t as [event rest r | e replay]; cbn in *.
    + unfold preload_resume.
      pose proof (deserialize_resume_window (c_data event) (c_uid event) r
        (set_tasks (delete k) st)) as (Hbuf & Htasks & _).
      destruct (deserializeAndPreloadCanvasEvents_resume decode (c_data event)
        (c_uid event) r (set_tasks (delete k) st)) as [st1 [error |]];
        cbn in Hbuf, Htasks.
      * unfold holders in *; cbn in *. rewrite Hbuf, Htasks, Hh'.
        split; [done |]. rewrite Hh in Hout. set_solver.
      * apply Hloop; unfold holders in *; cbn in *; rewrite ?Hbuf, ?Htasks, ?Hh'.
        -- rewrite Hh in Hout. set_solver.
        -- rewrite Hh in Hout. set_solver.
    + destruct (processMutation_resume_window e replay (set_tasks (delete k) st))
        as (Hbuf & _ & _ & Htasks). cbn in Hbuf, Htasks.
      unfold holders in *. rewrite Hbuf, Htasks, Hh'. by rewrite Hh in Hout.
Qed.

(** X15: [preloadBuffer.delete(event)] comes after the [await]: an event whose
    [preload] call is gone while the event is still in the window, as after
    a rejected resolution, stays in the window for good, and no call ever
    takes it up again. *)
Theorem stranded_event_stays_in_window events acts later u :
  let st := run decode drawCall (CanvasReplayerPlugin events) acts in
  let st' := run decode drawCall (CanvasReplayerPlugin events) (acts ++ later) in
  u ∈ preloadBuffer st → u ∉ holders st →
  u ∈ preloadBuffer st' ∧ u ∉ holders st'.
Proof.
  cbn zeta. unfold run at 3 4. rewrite foldl_app.
  fold (run decode drawCall (CanvasReplayerPlugin events) acts).
  pose proof (window_inv_run _ acts (window_inv_plugin events)) as Hinv.
  revert Hinv. generalize (run decode drawCall (CanvasReplayerPlugin events) acts).
  induction later as [| a later IH]; intros st Hinv Hin Hout; [done |].
  cbn [foldl]. destruct (stranded_step st a u Hinv Hin Hout).
  apply IH; [by apply window_inv_step | done..].
Qed.

(** ** The preload the plugin starts with, left to run *)

Lemma walk_args_reference m s l :
  (s = false ∨ existsb is_reference l = true) → (walk_args m s l).1 = false.
Proof.
  revert s. induction l as [| a l IH]; intros s; cbn.
  { intros [-> | ?]; done. }
  intros Hs. destruct (deserializeCanvasArg m s a) as [s1 p] eqn:Ha.
  specialize (IH s1). destruct (walk_args m s1 l) as [s2 ps]. cbn in *.
  apply IH. destruct Hs as [-> | [Hr | Hl]%orb_prop]; [| | by right].
  - left. by destruct a; cbn in Ha; simplify_eq.
  - left. by destruct a; cbn in Ha; simplify_eq.
Qed.

Lemma walk_commands_reference m s cs :
  (s = false ∨ existsb (λ c, existsb is_reference (args c)) cs = true) →
  (walk_commands m s cs).1 = false.
Proof.
  revert s. induction cs as [| c cs IH]; intros s; cbn.
  { intros [-> | ?]; done. }
  intros Hs. pose proof (walk_args_reference m s (args c)) as Ha.
  destruct (walk_args m s (args c)) as [s1 ps]. specialize (IH s1).
  destruct (walk_commands m s1 cs) as [s2 cps]. cbn in *.
  apply IH. destruct Hs as [-> | [Hr | Hl]%orb_prop]; [| | by right].
  - left. apply Ha. by left.
  - left. apply Ha. by right.
Qed.

Lemma run_idle st n :
  tasks st = [] → run decode drawCall st (replicate n (Settle 0)) = st.
Proof.
  intros Ht. unfold run. induction n as [| n IH]; [done |].
  cbn. by rewrite Ht.
Qed.

Section DecoderNeverFails.

Hypothesis decodes : ∀ payload, is_Some (decode payload).

Lemma mapM_succeeds {A B} (f : A → option B) (l : list A) :
  (∀ x, is_Some (f x)) → is_Some (mapM f l).
Proof.
  intros Hf. induction l as [| x l [k Hk]]; [by eexists |].
  destruct (Hf x) as [y Hy]. exists (y :: k). apply mapM_Some_2.
  constructor; [done |]. by apply mapM_Some_1.
Qed.

Lemma settle_args_succeed ps : is_Some (mapM (settle_arg decode) ps).
Proof.
  apply mapM_succeeds. intros [v | kind payload]; cbn; [by eexists |].
  destruct (decodes payload) as [h ->]. by eexists.
Qed.

Lemma settle_commands_succeed cps : is_Some (mapM (settle_command decode) cps).
Proof.
  apply mapM_succeeds. intros cp. unfold settle_command.
  destruct (settle_args_succeed (p_args cp)) as [a ->]. by eexists.
Qed.

Lemma resolution_succeeds d u r st :
  (deserializeAndPreloadCanvasEvents_resume decode d u r st).2 = None.
Proof.
  unfold deserializeAndPreloadCanvasEvents_resume.
  destruct r as [| s [cps | cp]]; [done | |].
  - destruct (settle_commands_succeed cps) as [l ->]. cbn. by destruct s.
  - unfold settle_command.
    destruct (settle_args_succeed (p_args cp)) as [a ->]. cbn. by destruct s.
Qed.

Lemma preload_runs_through evs st n :
  tasks st = [] → preloadBuffer st = ∅ → (length evs ≤ n)%nat →
  let st' := run decode drawCall (detach (preload_loop evs st))
               (replicate n (Settle 0)) in
  tasks st' = [] ∧ preloadBuffer st' = ∅ ∧ unhandled st' = unhandled st
  ∧ (∀ u, is_Some (canvasEventMap st !! u) → is_Some (canvasEventMap st' !! u))
  ∧ ∀ e, e ∈ evs → has_reference (c_data e) = true →
         is_Some (canvasEventMap st' !! c_uid e).
Proof.
  cbn zeta. revert st n.
  induction evs as [| event rest IH]; intros st n Ht Hb Hn.
  { cbn. rewrite (run_idle _ _ Ht). split_and!; try done. by intros e ?%elem_of_nil. }
  cbn [preload_loop]. rewrite Hb.
  rewrite (bool_decide_eq_true_2 (c_uid event ∉ ∅)) by set_solver. cbn [andb].
  destruct (canvasEventMap st !! c_uid event) as [m |] eqn:Hm.
  - rewrite bool_decide_eq_false_2 by done.
    destruct (IH st n Ht Hb) as (? & ? & ? & Hmono & Hrest); [cbn in Hn; lia |].
    split_and!; try done.
    intros e [-> | Hin]%elem_of_cons Href; [| by apply Hrest].
    apply Hmono. by rewrite Hm.
  - rewrite bool_decide_eq_true_2 by done.
    destruct n as [| n]; [cbn in Hn; lia |].
    destruct (deserialize_spec (c_data event) (c_uid event)
      (set_preloadBuffer (union {[c_uid event]}) st) Hm) as (s & p & Hbegin & _).
    assert (has_reference (c_data event) = true → s = false) as Hs.
    { intros Href. revert Hbegin. unfold deserializeAndPreloadCanvasEvents.
      cbn. rewrite Hm. unfold has_reference in Href.
      destruct (mutation (c_data event)) as [cs | c]; cbn in Href.
      - pose proof (walk_commands_reference (imageMap st) true cs (or_intror Href)).
        destruct (walk_commands (imageMap st) true cs). cbn in *.
        intros Heq. apply (f_equal snd) in Heq. cbn in Heq. by simplify_eq.
      - rewrite orb_false_r in Href.
        pose proof (walk_args_reference (imageMap st) true (args c) (or_intror Href)).
        destruct (walk_args (imageMap st) true (args c)). cbn in *.
        intros Heq. apply (f_equal snd) in Heq. cbn in Heq. by simplify_eq. }
    rewrite Hbegin. cbn [detach snd fst].
    assert (∀ X, run decode drawCall
                   (spawn (PreloadTask event rest (Walking s p)) X)
                   (replicate (S n) (Settle 0))
                 = run decode drawCall
                     (detach (preload_resume decode event rest (Walking s p)
                        (set_tasks (delete 0%nat)
                           (spawn (PreloadTask event rest (Walking s p)) X))))
                     (replicate n (Settle 0))) as -> by reflexivity.
    unfold preload_resume.
    set (parked := set_tasks _ _).
    pose proof (resolution_succeeds (c_data event) (c_uid event) (Walking s p) parked)
      as Hok.
    pose proof (deserialize_resume_window (c_data event) (c_uid event) (Walking s p)
      parked) as (Hbuf & Htasks & _ & Hmap).
    pose proof (deserialize_resume_frame (c_data event) (c_uid event) (Walking s p)
      parked) as (_ & _ & _ & _ & _ & _ & Hun).
    destruct (deserializeAndPreloadCanvasEvents_resume decode (c_data event)
      (c_uid event) (Walking s p) parked) as [st1 err] eqn:Hres.
    cbn in Hok, Hbuf, Htasks, Hmap, Hun. subst err.
    destruct (IH (set_preloadBuffer (λ b, b ∖ {[c_uid event]}) st1) n)
      as (? & ? & Hun' & Hmono & Hrest).
    { cbn. by rewrite Htasks. }
    { cbn. rewrite Hbuf, Hb. set_solver. }
    { cbn in Hn. lia. }
    cbn in Hun', Hmono. split_and!; try done.
    + by rewrite Hun', Hun.
    + intros u Hu. apply Hmono. destruct Hmap as [-> | [_ [m ->]]]; [done |].
      rewrite lookup_insert. by case_decide.
    + intros e [-> | Hin]%elem_of_cons Href; [| by apply Hrest].
      apply Hmono. specialize (Hs Href). subst s.
      by eapply deserialize_resume_caches.
Qed.

(** X16: When no decode fails, the [preload] call the plugin starts with, once
    its resolutions have come back one after the other, has cached every
    event with a SerializedReference among the first 30 canvas mutations;
    the window is empty again and no call is left. *)
Theorem first_preload_caches_first_slice events :
  let first := take (Z.to_nat PRELOAD_BUFFER_SIZE) (omap asCanvasMutation events) in
  let st := run decode drawCall (CanvasReplayerPlugin events)
              (replicate (length first) (Settle 0)) in
  tasks st = [] ∧ preloadBuffer st = ∅ ∧ unhandled st = []
  ∧ ∀ e, e ∈ first → has_reference (c_data e) = true →
         is_Some (canvasEventMap st !! c_uid e).
Proof.
  cbn zeta. unfold CanvasReplayerPlugin, preload.
  assert (eventsToPreload None (fresh events)
          = take (Z.to_nat PRELOAD_BUFFER_SIZE) (omap asCanvasMutation events)) as ->.
  { unfold eventsToPreload, currentIndex; cbn.
    rewrite size_empty. by rewrite slice_from_start. }
  destruct (preload_runs_through
    (take (Z.to_nat PRELOAD_BUFFER_SIZE) (omap asCanvasMutation events))
    (set_nextPreloadIndex (Some (currentIndex None (fresh events) + 1)) (fresh events))
    (length (take (Z.to_nat PRELOAD_BUFFER_SIZE) (omap asCanvasMutation events))))
    as (? & ? & ? & _ & ?); done.
Qed.

End DecoderNeverFails.

(** * Applies to one target *)

(** ** Dimensions *)

Lemma step_dimensions st a id :
  dimensions <$> canvases (step decode drawCall st a) !! id
  = from_option Some (dimensions <$> canvases st !! id) (measured id a).
Proof.
  destruct a as [currentEvent | node id' | e isSync mirror | k];
    unfold step, measured.
  - unfold preload. by destruct (preload_loop_frame
      (eventsToPreload currentEvent st)
      (set_nextPreloadIndex (Some (currentIndex currentEvent st + 1)) st))
      as (_ & -> & _).
  - unfold onBuild. by repeat case_match.
  - unfold handler. destruct isSync; [| done].
    destruct (asCanvasMutation e) as [ce |]; [| done].
    destruct (mirror !! data_id (c_data ce)) as [node |] eqn:Hnode.
    + rewrite (processMutation_live _ _ _ _ Hnode). cbn.
      destruct (Z.eqb_spec (data_id (c_data ce)) id) as [<- | Hne].
      * by rewrite lookup_insert_eq, Hnode.
      * by rewrite lookup_insert_ne.
    + destruct (processMutation_without_node ce mirror
        (set_nextPreloadIndex None st) Hnode) as [-> _]. cbn.
      destruct (Z.eqb_spec (data_id (c_data ce)) id) as [<- | Hne]; [| done].
      by rewrite Hnode.
  - destruct (tasks st !! k) as [[event rest r | e replay] |]; cbn; [| | done].
    + unfold preload_resume.
      pose proof (deserialize_resume_frame (c_data event) (c_uid event) r
        (set_tasks (delete k) st)) as (_ & Hc & _).
      destruct (deserializeAndPreloadCanvasEvents_resume decode (c_data event)
        (c_uid event) r (set_tasks (delete k) st)) as [st1 [error |]]; cbn in Hc.
      * cbn. by rewrite Hc.
      * destruct (preload_loop_frame rest
          (set_preloadBuffer (λ b, b ∖ {[c_uid event]}) st1)) as (_ & -> & _).
        cbn. by rewrite Hc.
    + destruct (canvases st !! data_id (c_data e)) as [target |] eqn:Ht.
      * rewrite (processMutation_resume_spec e replay target
          (set_tasks (delete k) st) Ht). cbn.
        destruct (decide (data_id (c_data e) = id)) as [<- | Hne].
        -- by rewrite lookup_insert_eq, Ht.
        -- by rewrite lookup_insert_ne.
      * unfold processMutation_resume. cbn. by rewrite Ht.
Qed.

(** C8 (as the code has it): at every moment the width and height of the
    target of a canvas id are the [clientWidth] and [clientHeight] that the
    apply for this id which started last measured on its node; a target
    that no apply of the run has reached keeps the dimensions it had.  An
    apply resizes before it parks at [canvasMutation] and nothing else
    resizes: its own measurement is on the target when it finishes exactly
    when no other apply for the id has started in between. *)
Theorem target_has_last_measured_dimensions st acts id :
  dimensions <$> canvases (run decode drawCall st acts) !! id
  = from_option Some (dimensions <$> canvases st !! id) (last_measured id acts).
Proof.
  unfold run, last_measured. revert st.
  induction acts as [| a acts IH]; intros st; cbn [foldl omap list_omap]; [done |].
  rewrite IH, step_dimensions.
  destruct (measured id a) as [d |]; cbn [from_option]; [| done].
  rewrite last_cons. by destruct (last (omap (measured id) acts)).
Qed.

(** ** Order *)
















End Behaviour.

(** * Runs of the sample recordings *)

(** An event with an image is decoded ahead of playback: its resolved
    mutation is cached, the handle is remembered, the window is empty again,
    and a later apply replays the resolved call. *)
Example image_is_decoded_ahead :
  let e := canvas_event 0 7 (drawImage 1) in
  let st := run sample_decode sample_drawCall (CanvasReplayerPlugin [e]) [Settle 0] in
  canvasEventMap st !! 0%nat
  = Some {| data_id := 7;
            mutation := Single {| method := "drawImage";
                                  args := [Decoded 101; Primitive 0; Primitive 0] |} |}
  ∧ imageMap st !! 1%nat = Some 101%nat
  ∧ elements (preloadBuffer st) = []
  ∧ decodeLog st = [(0%nat, [1%nat])]
  ∧ drawn_on 7
      (run sample_decode sample_drawCall st
         [CallHandler e true {[ 7 := sample_node 640 480 ]}; Settle 0])
    = [(0%nat, {| method := "drawImage";
                  args := [Decoded 101; Primitive 0; Primitive 0] |})].
Proof. vm_compute. by repeat split. Qed.

(** A draw call that throws an [Error] goes to [captureException], and the
    calls after it are still replayed. *)
Example failing_draw_call_is_reported :
  let failing (c : Command) :=
    if bool_decide (method c = "clearRect") then Some (ErrorObject "InvalidState")
    else None in
  let e := {| uid := 0; timestamp := 0; ev_type := IncrementalSnapshot;
              data := CanvasMutationSource
                        {| data_id := 7;
                           mutation := Commands [clearRect 0; fillRect 0] |} |} in
  let st := run sample_decode failing (CanvasReplayerPlugin [e])
              [CallOnBuild (Some {| nodeName := "CANVAS"; nodeType := 1 |}) 7;
               CallHandler e true {[ 7 := sample_node 640 480 ]}; Settle 0] in
  captured st = [ErrorObject "InvalidState"]
  ∧ unhandled st = []
  ∧ drawn_on 7 st = [(0%nat, clearRect 0); (0%nat, fillRect 0)]
  ∧ (src <$> containers st !! 7) = Some (canvases st !! 7).
Proof. vm_compute. by repeat split. Qed.

(** Forty calls of [preload], each after a reset and each for another of
    fifty canvases, fill the window to its capacity and no further. *)
Example window_fills_up :
  let events := map (λ u, canvas_event u (Z.of_nat u) (fillRect 0)) (seq 0 50) in
  let calls :=
    flat_map (λ u, [CallHandler (meta_event 99) true ∅;
                    CallPreload (Some (narrowed u (Z.of_nat u) (fillRect 0)))])
      (seq 1 40) in
  size (preloadBuffer
          (run sample_decode sample_drawCall (CanvasReplayerPlugin events) calls))
  = 30%nat.
Proof. by vm_compute. Qed.

(** C2: two events for canvas 7; after a reset, [preload] is given the
    second one, the event at index 1.  [findEvent] compares canvas ids, so it
    finds index 0, and the event at index 0 is put in the window. *)
Theorem preload_after_reset_starts_before_the_event :
  let events := [canvas_event 0 7 (fillRect 0); canvas_event 1 7 (fillRect 1)] in
  let target := narrowed 1 7 (fillRect 1) in
  let st := run sample_decode sample_drawCall (CanvasReplayerPlugin events)
              [Settle 0; Settle 0; CallHandler (meta_event 2) true ∅] in
  canvasMutationEvents st !! 1%nat = Some target
  ∧ nextPreloadIndex st = None
  ∧ elements (preloadBuffer st) = []
  ∧ findEvent (canvasMutationEvents st) target = 0
  ∧ currentIndex (Some target) st = 0
  ∧ elements (preloadBuffer
      (step sample_decode sample_drawCall st (CallPreload (Some target))))
    = [0%nat].
Proof. vm_compute. by repeat split. Qed.

(** C3, as stated, fails: a second call of
    [deserializeAndPreloadCanvasEvents] that starts while the first one for
    the same event is parked walks the arguments again, and the payload is
    handed to the decoder twice. *)
Lemma overlapping_resolutions_decode_twice :
  let d := {| data_id := 7; mutation := Single (drawImage 1) |} in
  let st0 := fresh [canvas_event 0 7 (drawImage 1)] in
  let first := deserializeAndPreloadCanvasEvents d 0%nat st0 in
  let second := deserializeAndPreloadCanvasEvents d 0%nat first.1 in
  let st1 := (deserializeAndPreloadCanvasEvents_resume sample_decode d 0%nat
                first.2 second.1).1 in
  let st2 := (deserializeAndPreloadCanvasEvents_resume sample_decode d 0%nat
                second.2 st1).1 in
  decodeLog st2 = [(0%nat, [1%nat]); (0%nat, [1%nat])]
  ∧ length (decoding_walks 0%nat (decodeLog st2)) = 2%nat.
Proof. vm_compute. by split. Qed.


(** In that run the second apply starts while the first is parked, and what
    is on the target is not what was delivered. *)
Example swapped_draw_calls_come_from_overlap :
  let first := canvas_event 0 7 (drawImage 1) in
  let second := canvas_event 1 7 (clearRect 0) in
  let mirror : gmap Z SourceNode := {[ 7 := sample_node 640 480 ]} in
  let acts := [CallHandler first true mirror; CallHandler second true mirror;
               Settle 0; Settle 0] in
  one_apply_at_a_time sample_decode sample_drawCall 7
    (CanvasReplayerPlugin [first; second]) acts = false
  ∧ delivered sample_decode sample_drawCall 7
      (CanvasReplayerPlugin [first; second]) acts
    = [(0%nat, drawImage 1); (1%nat, clearRect 0)].
Proof. by vm_compute. Qed.

(** C8, as stated, fails: two applies for canvas 7 overlap.  The first
    measures 640 by 480, the second, started while the first is parked,
    measures 320 by 200; then the first finishes.  It has drawn, the second
    is still parked, and the target has the dimensions of the second. *)
Lemma finished_apply_leaves_later_dimensions :
  let first := canvas_event 0 7 (fillRect 1) in
  let second := canvas_event 1 7 (clearRect 0) in
  let st := run sample_decode sample_drawCall (CanvasReplayerPlugin [first; second])
              [CallHandler first true {[ 7 := sample_node 640 480 ]};
               CallHandler second true {[ 7 := sample_node 320 200 ]};
               Settle 1] in
  measured 7 (CallHandler first true {[ 7 := sample_node 640 480 ]})
  = Some (640, 480)
  ∧ drawn_on 7 st = [(0%nat, fillRect 1)]
  ∧ filter (λ t, is_apply_for 7 t = true) (tasks st)
    = [MutationTask (narrowed 1 7 (clearRect 0)) [clearRect 0]]
  ∧ dimensions <$> canvases st !! 7 = Some (320, 200).
Proof. vm_compute. by repeat split. Qed.

(** C6: the first event refers to a payload the decoder fails on.  When its
    resolution comes back, nothing is cached and nothing has been reported:
    the rejection is lost, the [preload] call is gone with the second event
    of its slice never looked at, and the first event stays in the window. *)
Theorem failed_decode_ends_preload_unreported :
  let events := [canvas_event 0 7 (drawImage 0); canvas_event 1 7 (drawImage 1)] in
  let st := run sample_decode sample_drawCall (CanvasReplayerPlugin events) [Settle 0] in
  canvasEventMap st = ∅
  ∧ captured st = [] ∧ consoleErrors st = []
  ∧ unhandled st = [DecodeFailure]
  ∧ tasks st = []
  ∧ decodeLog st = [(0%nat, [0%nat])]
  ∧ elements (preloadBuffer st) = [0%nat].
Proof. vm_compute. by repeat split. Qed.

(** C7: the target of canvas 7 exists from an earlier apply, and the mirror
    has lost the node.  [processMutation] finds the target, reads
    [clientWidth] of null and throws. *)
Theorem missing_node_with_known_target_throws :
  let e := canvas_event 0 7 (fillRect 0) in
  let st := run sample_decode sample_drawCall (CanvasReplayerPlugin [e])
              [CallHandler e true {[ 7 := sample_node 640 480 ]}; Settle 0] in
  is_Some (canvases st !! 7)
  ∧ processMutation (narrowed 0 7 (fillRect 0)) ∅ st
    = (st, Threw (ErrorObject "TypeError"))
  ∧ unhandled (step sample_decode sample_drawCall st (CallHandler e true ∅))
    = [ErrorObject "TypeError"].
Proof. vm_compute. split; [by eexists | by split]. Qed.


(** * The theorems at work on the sample recordings *)

(** A [fillRect] with four numbers is resolved and nothing is cached. *)
Lemma unchanged_mutation_is_not_cached_witness :
  let d := {| data_id := 7; mutation := Single (fillRect 0) |} in
  let st := fresh [canvas_event 0 7 (fillRect 0)] in
  has_reference d = false
  ∧ canvasEventMap
      (deserializeAndPreloadCanvasEvents_resume sample_decode d 0%nat
         (deserializeAndPreloadCanvasEvents d 0%nat st).2 st).1
    = canvasEventMap st.
Proof.
  split; [reflexivity |].
  apply (unchanged_mutation_is_not_cached sample_decode
           {| data_id := 7; mutation := Single (fillRect 0) |} 0%nat
           (fresh [canvas_event 0 7 (fillRect 0)])
           (fresh [canvas_event 0 7 (fillRect 0)])).
  reflexivity.
Defined.



(** Two calls of [preload] after the first, with a resolution and an
    ordinary delivery in between: the cursor stands at 3. *)
Lemma cursor_counts_preload_calls_witness :
  let events := [canvas_event 0 7 (fillRect 0); canvas_event 1 8 (fillRect 1)] in
  let acts := [CallPreload None; Settle 0;
               CallPreload (Some (narrowed 0 7 (fillRect 0)));
               CallHandler (meta_event 2) false ∅] in
  forallb (λ a, negb (is_seek a)) acts = true
  ∧ nextPreloadIndex
      (run sample_decode sample_drawCall (CanvasReplayerPlugin events) acts)
    = Some 3.
Proof.
  split; [reflexivity |].
  exact (cursor_counts_preload_calls sample_decode sample_drawCall
           [canvas_event 0 7 (fillRect 0); canvas_event 1 8 (fillRect 1)]
           [CallPreload None; Settle 0;
            CallPreload (Some (narrowed 0 7 (fillRect 0)));
            CallHandler (meta_event 2) false ∅] eq_refl).
Defined.

(** Forty canvas mutations and no further call of [preload]: event 2, in
    the window after two resolutions, is one of the first 30. *)
Lemma plugin_preloads_first_slice_only_witness :
  let events := map (λ u, canvas_event u 7 (fillRect 0)) (seq 0 40) in
  let acts := [Settle 0; Settle 0; CallHandler (meta_event 99) true ∅] in
  forallb (λ a, negb (is_preload_call a)) acts = true
  ∧ ((2%nat, [] : list nat)
       ∈ decodeLog (run sample_decode sample_drawCall (CanvasReplayerPlugin events) acts)
     ∨ 2%nat ∈ preloadBuffer
         (run sample_decode sample_drawCall (CanvasReplayerPlugin events) acts))
  ∧ 2%nat ∈ c_uid <$> take (Z.to_nat PRELOAD_BUFFER_SIZE) (omap asCanvasMutation events).
Proof.
  assert (preloadBuffer
            (run sample_decode sample_drawCall
               (CanvasReplayerPlugin (map (λ u, canvas_event u 7 (fillRect 0)) (seq 0 40)))
               [Settle 0; Settle 0; CallHandler (meta_event 99) true ∅])
          = {[2%nat]}) as Hwindow by (vm_compute; reflexivity).
  assert ((2%nat, [] : list nat)
            ∈ decodeLog (run sample_decode sample_drawCall
                (CanvasReplayerPlugin (map (λ u, canvas_event u 7 (fillRect 0)) (seq 0 40)))
                [Settle 0; Settle 0; CallHandler (meta_event 99) true ∅])
          ∨ 2%nat ∈ preloadBuffer
              (run sample_decode sample_drawCall
                 (CanvasReplayerPlugin (map (λ u, canvas_event u 7 (fillRect 0)) (seq 0 40)))
                 [Settle 0; Settle 0; CallHandler (meta_event 99) true ∅])) as Hbusy.
  { right. rewrite Hwindow. by apply elem_of_singleton. }
  split; [reflexivity |]. split; [exact Hbusy |].
  exact (plugin_preloads_first_slice_only sample_decode sample_drawCall
           (map (λ u, canvas_event u 7 (fillRect 0)) (seq 0 40))
           [Settle 0; Settle 0; CallHandler (meta_event 99) true ∅]
           2%nat [] eq_refl Hbusy).
Defined.

(** Nothing has been rejected after one resolution: the window holds the
    event the call is parked at. *)
Lemma window_is_the_calls_in_flight_witness :
  let st := run sample_decode sample_drawCall
              (CanvasReplayerPlugin
                 [canvas_event 0 7 (drawImage 1); canvas_event 1 7 (fillRect 0)])
              [Settle 0] in
  unhandled st = []
  ∧ (∀ u, u ∈ preloadBuffer st ↔ u ∈ holders st)
  ∧ (tasks st = [] → preloadBuffer st = ∅).
Proof.
  split; [reflexivity |].
  exact (window_is_the_calls_in_flight sample_decode sample_drawCall
           [canvas_event 0 7 (drawImage 1); canvas_event 1 7 (fillRect 0)]
           [Settle 0] eq_refl).
Defined.

(** The resolved [drawImage] of event 0 is still the entry of event 0 after
    a seek and another round of preloading. *)
Lemma cached_entry_is_final_witness :
  let events := [canvas_event 0 7 (drawImage 1); canvas_event 1 7 (fillRect 0)] in
  let m := {| data_id := 7;
              mutation := Single {| method := "drawImage";
                                    args := [Decoded 101; Primitive 0; Primitive 0] |} |} in
  canvasEventMap
    (run sample_decode sample_drawCall (CanvasReplayerPlugin events) [Settle 0]) !! 0%nat
  = Some m
  ∧ canvasEventMap
      (run sample_decode sample_drawCall (CanvasReplayerPlugin events)
         ([Settle 0]
          ++ [Settle 0; CallHandler (meta_event 2) true ∅; CallPreload None; Settle 0]))
      !! 0%nat
    = Some m.
Proof.
  assert (canvasEventMap
            (run sample_decode sample_drawCall
               (CanvasReplayerPlugin
                  [canvas_event 0 7 (drawImage 1); canvas_event 1 7 (fillRect 0)])
               [Settle 0]) !! 0%nat
          = Some {| data_id := 7;
                    mutation := Single {| method := "drawImage";
                                          args := [Decoded 101; Primitive 0;
                                                   Primitive 0] |} |}) as Hcached
    by (vm_compute; reflexivity).
  split; [exact Hcached |].
  exact (cached_entry_is_final sample_decode sample_drawCall _ _ _ _ _ Hcached).
Defined.

(** A [drawImage] with an image and two numbers is stored as a single
    [drawImage] with three arguments for canvas 7. *)
Lemma resolved_mutation_keeps_outline_witness :
  let d := {| data_id := 7; mutation := Single (drawImage 1) |} in
  let st := fresh [canvas_event 0 7 (drawImage 1)] in
  let m := {| data_id := 7;
              mutation := Single {| method := "drawImage";
                                    args := [Decoded 101; Primitive 0; Primitive 0] |} |} in
  canvasEventMap
    (deserializeAndPreloadCanvasEvents_resume sample_decode d 0%nat
       (deserializeAndPreloadCanvasEvents d 0%nat st).2 st).1 !! 0%nat = Some m
  ∧ (canvasEventMap st !! 0%nat = Some m
     ∨ data_id m = data_id d ∧ outline (mutation m) = outline (mutation d)).
Proof.
  assert (canvasEventMap
            (deserializeAndPreloadCanvasEvents_resume sample_decode
               {| data_id := 7; mutation := Single (drawImage 1) |} 0%nat
               (deserializeAndPreloadCanvasEvents
                  {| data_id := 7; mutation := Single (drawImage 1) |} 0%nat
                  (fresh [canvas_event 0 7 (drawImage 1)])).2
               (fresh [canvas_event 0 7 (drawImage 1)])).1 !! 0%nat
          = Some {| data_id := 7;
                    mutation := Single {| method := "drawImage";
                                          args := [Decoded 101; Primitive 0;
                                                   Primitive 0] |} |}) as Hstored
    by (vm_compute; reflexivity).
  split; [exact Hstored |].
  exact (resolved_mutation_keeps_outline sample_decode _ _ _ _ _ Hstored).
Defined.

(** Canvas 7 has its placeholder; the tree is built again. *)
Lemma onBuild_keeps_placeholder_witness :
  let st := run sample_decode sample_drawCall
              (CanvasReplayerPlugin [canvas_event 0 7 (fillRect 0)])
              [CallOnBuild (Some canvas_node) 7;
               CallHandler (canvas_event 0 7 (fillRect 0)) true
                 {[ 7 := sample_node 640 480 ]}; Settle 0] in
  is_Some (containers st !! 7)
  ∧ onBuild (Some canvas_node) 7 st = st.
Proof.
  assert (is_Some (containers
            (run sample_decode sample_drawCall
               (CanvasReplayerPlugin [canvas_event 0 7 (fillRect 0)])
               [CallOnBuild (Some canvas_node) 7;
                CallHandler (canvas_event 0 7 (fillRect 0)) true
                  {[ 7 := sample_node 640 480 ]}; Settle 0]) !! 7)) as Hbound.
  { eexists. vm_compute. reflexivity. }
  split; [exact Hbound |].
  exact (onBuild_keeps_placeholder (Some canvas_node) 7 _ Hbound).
Defined.

(** A decode fails while the plugin only preloads: nothing is reported. *)
Lemma preloading_reports_nothing_witness :
  let events := [canvas_event 0 7 (drawImage 0); canvas_event 1 7 (drawImage 1)] in
  let acts := [Settle 0; CallPreload None; Settle 0;
               CallHandler (canvas_event 1 7 (drawImage 1)) false ∅] in
  let st := run sample_decode sample_drawCall (CanvasReplayerPlugin events) acts in
  forallb (λ a, negb (is_seek a)) acts = true
  ∧ captured st = [] ∧ consoleErrors st = []
  ∧ ∀ e replay, MutationTask e replay ∉ tasks st.
Proof.
  split; [reflexivity |].
  exact (preloading_reports_nothing sample_decode sample_drawCall
           [canvas_event 0 7 (drawImage 0); canvas_event 1 7 (drawImage 1)]
           [Settle 0; CallPreload None; Settle 0;
            CallHandler (canvas_event 1 7 (drawImage 1)) false ∅] eq_refl).
Defined.

(** The decode of event 0 has failed: the event is in the window with no
    call waiting on it, and a seek and two more rounds of preloading do not
    change that. *)
Lemma stranded_event_stays_in_window_witness :
  let events := [canvas_event 0 7 (drawImage 0); canvas_event 1 7 (drawImage 1)] in
  let st := run sample_decode sample_drawCall (CanvasReplayerPlugin events) [Settle 0] in
  let st' := run sample_decode sample_drawCall (CanvasReplayerPlugin events)
               ([Settle 0]
                ++ [CallHandler (meta_event 2) true ∅; CallPreload None; Settle 0;
                    CallPreload None]) in
  0%nat ∈ preloadBuffer st ∧ (0%nat ∉ holders st)
  ∧ 0%nat ∈ preloadBuffer st' ∧ (0%nat ∉ holders st').
Proof.
  assert (preloadBuffer
            (run sample_decode sample_drawCall
               (CanvasReplayerPlugin
                  [canvas_event 0 7 (drawImage 0); canvas_event 1 7 (drawImage 1)])
               [Settle 0]) = {[0%nat]}) as Hwindow by (vm_compute; reflexivity).
  assert (holders
            (run sample_decode sample_drawCall
               (CanvasReplayerPlugin
                  [canvas_event 0 7 (drawImage 0); canvas_event 1 7 (drawImage 1)])
               [Settle 0]) = []) as Hheld by (vm_compute; reflexivity).
  assert (0%nat ∈ preloadBuffer
            (run sample_decode sample_drawCall
               (CanvasReplayerPlugin
                  [canvas_event 0 7 (drawImage 0); canvas_event 1 7 (drawImage 1)])
               [Settle 0])) as Hin.
  { rewrite Hwindow. by apply elem_of_singleton. }
  assert (0%nat ∉ holders
            (run sample_decode sample_drawCall
               (CanvasReplayerPlugin
                  [canvas_event 0 7 (drawImage 0); canvas_event 1 7 (drawImage 1)])
               [Settle 0])) as Hout.
  { rewrite Hheld. apply not_elem_of_nil. }
  split; [exact Hin |]. split; [exact Hout |].
  exact (stranded_event_stays_in_window sample_decode sample_drawCall _ _ _ _ Hin Hout).
Defined.

(** With a decoder that never fails, two resolutions cache the image of
    event 0 and leave nothing behind. *)
Lemma first_preload_caches_first_slice_witness :
  let events := [canvas_event 0 7 (drawImage 0); canvas_event 1 7 (fillRect 0)] in
  let first := take (Z.to_nat PRELOAD_BUFFER_SIZE) (omap asCanvasMutation events) in
  let st := run steady_decode sample_drawCall (CanvasReplayerPlugin events)
              (replicate (length first) (Settle 0)) in
  (∀ payload, is_Some (steady_decode payload))
  ∧ tasks st = [] ∧ preloadBuffer st = ∅ ∧ unhandled st = []
  ∧ ∀ e, e ∈ first → has_reference (c_data e) = true →
         is_Some (canvasEventMap st !! c_uid e).
Proof.
  assert (∀ payload, is_Some (steady_decode payload)) as Hsteady.
  { intros payload. by eexists. }
  split; [exact Hsteady |].
  exact (first_preload_caches_first_slice steady_decode sample_drawCall Hsteady
           [canvas_event 0 7 (drawImage 0); canvas_event 1 7 (fillRect 0)]).
Defined.
